(** * Verification of yellow-scraper.py

    A shallow embedding of the Yellow Pages scraper: the parsed HTML tree
    and the two BeautifulSoup queries it uses ([find_all] and [find]), the
    extractor [parse_restaurants], the paginator [get_next_page_url] together
    with the parts of CPython 3.11's [urllib.parse] it relies on
    ([urlsplit] with its [ValueError]s, [urljoin], [quote_plus]), the crawl
    loop [scrape_yellow_pages], the CSV writer [save_to_csv] with [open] on
    a directory of files, and the [__main__] block.

    Python strings are modelled as Rocq [string]s holding their UTF-8 bytes;
    a lone surrogate, which UTF-8 cannot encode, is held as the three bytes
    [ED A0..BF xx] that its code point would have. *)

From Stdlib Require Import String Ascii List Bool Arith Lia ZArith.
Import ListNotations.
Open Scope string_scope.
Set Warnings "-register-all,-abstract-large-number".

(** ** String helpers (Python [str] methods used by the program and by
    [urllib.parse]) *)

Definition ascii_code (c : ascii) : nat := nat_of_ascii c.

Fixpoint lstrip_by (p : ascii -> bool) (s : string) : string :=
  match s with
  | EmptyString => EmptyString
  | String c r => if p c then lstrip_by p r else s
  end.

Fixpoint rev_string (s : string) : string :=
  match s with
  | EmptyString => EmptyString
  | String c r => rev_string r ++ String c EmptyString
  end.

Definition rstrip_by (p : ascii -> bool) (s : string) : string :=
  rev_string (lstrip_by p (rev_string s)).

(** The string of the bytes [l]. *)
Definition bytes (l : list nat) : string :=
  fold_right (fun n s => String (ascii_of_nat n) s) EmptyString l.

(** The UTF-8 bytes of a code point below U+10000. *)
Definition utf8 (cp : nat) : string :=
  if Nat.ltb cp 128 then bytes [cp]
  else if Nat.ltb cp 2048 then bytes [192 + cp / 64; 128 + cp mod 64]
  else bytes [224 + cp / 4096; 128 + (cp / 64) mod 64; 128 + cp mod 64].

(** The characters [c] with [c.isspace()] ([Py_UNICODE_ISSPACE] over the
    Unicode 14.0 database of Python 3.11), by their UTF-8 bytes. *)
Definition py_space_chars : list string :=
  Eval vm_compute in map utf8
    [0x09; 0x0A; 0x0B; 0x0C; 0x0D; 0x1C; 0x1D; 0x1E; 0x1F; 0x20; 0x85; 0xA0;
     0x1680; 0x2000; 0x2001; 0x2002; 0x2003; 0x2004; 0x2005; 0x2006; 0x2007;
     0x2008; 0x2009; 0x200A; 0x2028; 0x2029; 0x202F; 0x205F; 0x3000].

(** [Some r] when [s] is [w ++ r]. *)
Fixpoint strip_prefix (w s : string) : option string :=
  match w, s with
  | EmptyString, _ => Some s
  | String c w', String d s' => if Ascii.eqb c d then strip_prefix w' s' else None
  | String _ _, EmptyString => None
  end.

(** [s] without its first character, when that character is one of [ws]. *)
Fixpoint drop_first (ws : list string) (s : string) : option string :=
  match ws with
  | [] => None
  | w :: ws' =>
      match strip_prefix w s with
      | Some r => Some r
      | None => drop_first ws' s
      end
  end.

(** The leading characters of [s] that are among [ws] removed, at most [n]
    of them. *)
Fixpoint lstrip_n (ws : list string) (n : nat) (s : string) : string :=
  match n with
  | O => s
  | S n' =>
      match drop_first ws s with
      | Some r => lstrip_n ws n' r
      | None => s
      end
  end.

(** [str.strip()]: the whitespace characters at the start, then those at
    the end (read on the reversed bytes) removed. *)
Definition strip (s : string) : string :=
  let s := lstrip_n py_space_chars (String.length s) s in
  rev_string (lstrip_n (map rev_string py_space_chars) (String.length s) (rev_string s)).

(** [s.encode('utf-8')] succeeds: [s] holds no lone surrogate.  A [str]
    is held as its UTF-8 bytes; a lone surrogate U+D800..U+DFFF, which
    [sys.argv] holds for bytes it cannot decode and BeautifulSoup makes of
    a reference such as [&#xD800;], as the three bytes [ED], [A0]..[BF],
    [80]..[BF] that the same scheme gives it. *)
Fixpoint encodes_utf8 (s : string) : bool :=
  match s with
  | EmptyString => true
  | String c r =>
      match r with
      | String d _ =>
          if Nat.eqb (nat_of_ascii c) 237 && Nat.leb 160 (nat_of_ascii d) then false
          else encodes_utf8 r
      | EmptyString => true
      end
  end.

Fixpoint contains_char (c : ascii) (s : string) : bool :=
  match s with
  | EmptyString => false
  | String d r => Ascii.eqb c d || contains_char c r
  end.

(** [s.find(c)] *)
Fixpoint find_char (c : ascii) (s : string) : option nat :=
  match s with
  | EmptyString => None
  | String d r =>
      if Ascii.eqb c d then Some 0
      else option_map S (find_char c r)
  end.

(** [s.split(c, 1)] when [c in s]: the parts before and after the first [c]. *)
Fixpoint split_first (c : ascii) (s : string) : option (string * string) :=
  match s with
  | EmptyString => None
  | String d r =>
      if Ascii.eqb c d then Some (EmptyString, r)
      else match split_first c r with
           | Some (a, b) => Some (String d a, b)
           | None => None
           end
  end.

(** [s.split(c)] *)
Fixpoint split_on (c : ascii) (s : string) : list string :=
  match s with
  | EmptyString => [EmptyString]
  | String d r =>
      if Ascii.eqb c d then EmptyString :: split_on c r
      else match split_on c r with
           | x :: xs => String d x :: xs
           | [] => [String d EmptyString]
           end
  end.

(** [sep.join(l)] *)
Fixpoint join (sep : string) (l : list string) : string :=
  match l with
  | [] => EmptyString
  | [x] => x
  | x :: xs => x ++ sep ++ join sep xs
  end.

Fixpoint remove_char (c : ascii) (s : string) : string :=
  match s with
  | EmptyString => EmptyString
  | String d r => if Ascii.eqb c d then remove_char c r else String d (remove_char c r)
  end.

(** [s.lower()] on ASCII letters *)
Fixpoint lower (s : string) : string :=
  match s with
  | EmptyString => EmptyString
  | String c r =>
      let n := ascii_code c in
      String (if Nat.leb 65 n && Nat.leb n 90 then ascii_of_nat (n + 32) else c) (lower r)
  end.

Definition string_mem (s : string) (l : list string) : bool :=
  existsb (String.eqb s) l.

(** ** The parsed document *)

(** A node of the tree built by [BeautifulSoup(text, "html.parser")]: a
    text node or an element with its tag name, its (multi-valued) class
    list, its other attributes and its children.  The [BeautifulSoup]
    object itself is the element named ["[document]"]. *)
Inductive node : Type :=
  | Text (s : string)
  | Elem (tag : string) (classes : list string)
         (attrs : list (string * string)) (children : list node).

(** [tag.descendants]: every node below [n], in document order. *)
Fixpoint descendants (n : node) : list node :=
  match n with
  | Text _ => []
  | Elem _ _ _ kids =>
      (fix go (ks : list node) : list node :=
         match ks with
         | [] => []
         | k :: ks' => (k :: descendants k) ++ go ks'
         end)%list kids
  end.

(** [tag.text] ([get_text()]): the concatenation of all text below. *)
Fixpoint text (n : node) : string :=
  match n with
  | Text s => s
  | Elem _ _ _ kids =>
      (fix go (ks : list node) : string :=
         match ks with
         | [] => EmptyString
         | k :: ks' => text k ++ go ks'
         end) kids
  end.

(** The filter of [find_all(name, class_=cls)]: an element with that tag
    name one of whose classes is [cls]. *)
Definition matches (name cls : string) (n : node) : bool :=
  match n with
  | Text _ => false
  | Elem t cs _ _ => String.eqb t name && string_mem cls cs
  end.

Definition find_all (name cls : string) (n : node) : list node :=
  filter (matches name cls) (descendants n).

(** [find] is [find_all] limited to the first match; [None] when none. *)
Definition find (name cls : string) (n : node) : option node :=
  hd_error (find_all name cls n).

(** [tag.get(attr)] *)
Definition get (n : node) (attr : string) : option string :=
  match n with
  | Text _ => None
  | Elem _ _ attrs _ =>
      match List.find (fun p => String.eqb (fst p) attr) attrs with
      | Some (_, v) => Some v
      | None => None
      end
  end.

(** ** [parse_restaurants] *)

Definition listing : Type := (string * string)%type.

Definition no_phone : string := "No phone number available".

(** The body of the [for] loop over [restaurant_list], accumulating into
    [restaurants].  [None] is the [AttributeError] raised by
    [restaurant_info.find("a", class_="business-name").text] when the
    block has no name element. *)
Fixpoint parse_loop (restaurant_list : list node) (restaurants : list listing)
  : option (list listing) :=
  match restaurant_list with
  | [] => Some restaurants
  | restaurant_info :: rest =>
      match find "a" "business-name" restaurant_info with
      | None => None
      | Some name_el =>
          let restaurant_name := strip (text name_el) in
          let website_link := find "a" "track-visit-website" restaurant_info in
          let phone_element := find "div" "phones" restaurant_info in
          let phone_number :=
            match phone_element with
            | Some p => strip (text p)
            | None => no_phone
            end in
          let restaurants' :=
            match website_link with
            | None => (restaurants ++ [(restaurant_name, phone_number)])%list
            | Some _ => restaurants
            end in
          parse_loop rest restaurants'
      end
  end.

Definition parse_restaurants (soup : node) : option (list listing) :=
  parse_loop (find_all "div" "info" soup) [].

(** ** [urllib.parse] (CPython 3.11), the parts the program calls *)

Module UrlParse.

Definition uses_relative : list string :=
  [""; "ftp"; "http"; "gopher"; "nntp"; "imap"; "wais"; "file"; "https";
   "shttp"; "mms"; "prospero"; "rtsp"; "rtspu"; "sftp"; "svn"; "svn+ssh";
   "ws"; "wss"].

Definition uses_netloc : list string :=
  [""; "ftp"; "http"; "gopher"; "nntp"; "telnet"; "imap"; "wais"; "file";
   "mms"; "https"; "shttp"; "snews"; "prospero"; "rtsp"; "rtspu"; "rsync";
   "svn"; "svn+ssh"; "sftp"; "nfs"; "git"; "git+ssh"; "ws"; "wss"].

Definition uses_params : list string :=
  [""; "ftp"; "hdl"; "prospero"; "http"; "imap"; "https"; "shttp"; "rtsp";
   "rtspu"; "sip"; "sips"; "mms"; "sftp"; "tel"].

Definition is_ascii_alpha (c : ascii) : bool :=
  let n := ascii_code c in
  (Nat.leb 65 n && Nat.leb n 90) || (Nat.leb 97 n && Nat.leb n 122).

Definition is_ascii_digit (c : ascii) : bool :=
  let n := ascii_code c in Nat.leb 48 n && Nat.leb n 57.

(** [c in scheme_chars] *)
Definition is_scheme_char (c : ascii) : bool :=
  is_ascii_alpha c || is_ascii_digit c || contains_char c "+-.".

Fixpoint all_chars (p : ascii -> bool) (s : string) : bool :=
  match s with
  | EmptyString => true
  | String c r => p c && all_chars p r
  end.

(** [c in _WHATWG_C0_CONTROL_OR_SPACE] *)
Definition is_c0_or_space (c : ascii) : bool := Nat.leb (ascii_code c) 32.

Definition tab : ascii := ascii_of_nat 9.
Definition lf : ascii := ascii_of_nat 10.
Definition cr : ascii := ascii_of_nat 13.

(** the loop over [_UNSAFE_URL_BYTES_TO_REMOVE] *)
Definition remove_unsafe (s : string) : string :=
  remove_char lf (remove_char cr (remove_char tab s)).

Definition starts_with_2slash (s : string) : bool :=
  String.prefix "//" s.

(** [_splitnetloc(url, 2)] applied to the text after the leading ["//"]:
    the netloc runs up to the first ['/'], ['?'] or ['#']. *)
Fixpoint split_netloc (s : string) : string * string :=
  match s with
  | EmptyString => (EmptyString, EmptyString)
  | String c r =>
      if contains_char c "/?#" then (EmptyString, s)
      else let (a, b) := split_netloc r in (String c a, b)
  end.

Definition nonempty (s : string) : bool := negb (String.eqb s EmptyString).

(** The parts of [s] before and after its last occurrence of [c]. *)
Fixpoint split_last (c : ascii) (s : string) : option (string * string) :=
  match s with
  | EmptyString => None
  | String d r =>
      match split_last c r with
      | Some (a, b) => Some (String d a, b)
      | None => if Ascii.eqb c d then Some (EmptyString, r) else None
      end
  end.

(** *** [ipaddress.ip_address] (CPython 3.11), as [_check_bracketed_host]
    uses it *)

Definition is_hex_digit (c : ascii) : bool :=
  is_ascii_digit c || contains_char c "abcdefABCDEF".

Fixpoint decimal_value (acc : N) (s : string) : N :=
  match s with
  | EmptyString => acc
  | String c r => decimal_value (acc * 10 + N.of_nat (ascii_code c - 48))%N r
  end.

(** [_BaseV4._parse_octet]; [None] is the [ValueError] it raises. *)
Definition parse_octet (octet_str : string) : option N :=
  if negb (nonempty octet_str) then None
  else if negb (all_chars is_ascii_digit octet_str) then None
  else if Nat.ltb 3 (String.length octet_str) then None
  else if negb (String.eqb octet_str "0") && String.prefix "0" octet_str then None
  else
    let octet_int := decimal_value 0 octet_str in
    if N.ltb 255 octet_int then None else Some octet_int.

(** [IPv4Address(address)] on a string: the address as an integer, or
    [None] for the [AddressValueError] it raises. *)
Definition ipv4_address (address : string) : option N :=
  if contains_char "/" address then None
  else if negb (nonempty address) then None
  else
    match split_on "." address with
    | [a; b; c; d] =>
        match parse_octet a, parse_octet b, parse_octet c, parse_octet d with
        | Some a, Some b, Some c, Some d =>
            Some (((a * 256 + b) * 256 + c) * 256 + d)%N
        | _, _, _, _ => None
        end
    | _ => None
    end.

Definition hex_char (d : N) : ascii :=
  if N.ltb d 10 then ascii_of_N (48 + d) else ascii_of_N (87 + d).

Fixpoint hex_format_aux (fuel : nat) (n : N) (acc : string) : string :=
  match fuel with
  | O => acc
  | S f =>
      let acc := String (hex_char (N.modulo n 16)) acc in
      if N.ltb n 16 then acc else hex_format_aux f (N.div n 16) acc
  end.

(** ['%x' % n] for [n < 0x10000] *)
Definition hex_format (n : N) : string := hex_format_aux 4 n EmptyString.

(** [_BaseV6._parse_hextet] returns ([int('', 16)] raises too). *)
Definition parse_hextet (hextet_str : string) : bool :=
  all_chars is_hex_digit hextet_str && Nat.leb (String.length hextet_str) 4
  && nonempty hextet_str.

(** The indices [i] in [range(1, len(parts) - 1)] with [not parts[i]]. *)
Definition inner_empty (parts : list string) : list nat :=
  filter (fun i => negb (nonempty (nth i parts EmptyString)))
    (seq 1 (length parts - 2)).

(** [_BaseV6._ip_int_from_string] once an IPv4 suffix has been turned into
    two hextets: [true] when it returns. *)
Definition ipv6_parts_ok (parts : list string) : bool :=
  let n := length parts in
  if Nat.ltb 9 n then false
  else
    let first_empty := negb (nonempty (hd EmptyString parts)) in
    let last_empty := negb (nonempty (last parts EmptyString)) in
    match inner_empty parts with
    | [skip_index] =>
        let parts_hi := skip_index in
        let parts_lo := n - skip_index - 1 in
        if first_empty && Nat.ltb 0 (parts_hi - 1) then false
        else
          let parts_hi := if first_empty then parts_hi - 1 else parts_hi in
          if last_empty && Nat.ltb 0 (parts_lo - 1) then false
          else
            let parts_lo := if last_empty then parts_lo - 1 else parts_lo in
            if Nat.leb 8 (parts_hi + parts_lo) then false
            else forallb parse_hextet (firstn parts_hi parts)
                 && forallb parse_hextet (skipn (n - parts_lo) parts)
    | [] =>
        if negb (Nat.eqb n 8) then false
        else if first_empty || last_empty then false
        else forallb parse_hextet parts
    | _ => false
    end.

(** [_BaseV6._ip_int_from_string(ip_str)]: [true] when it returns. *)
Definition ipv6_int_ok (ip_str : string) : bool :=
  if negb (nonempty ip_str) then false
  else
    let parts := split_on ":" ip_str in
    if Nat.ltb (length parts) 3 then false
    else
      let parts :=
        if contains_char "." (last parts EmptyString) then
          match ipv4_address (last parts EmptyString) with
          | Some ipv4_int =>
              Some (removelast parts
                    ++ [hex_format (N.land (N.shiftr ipv4_int 16) 65535);
                        hex_format (N.land ipv4_int 65535)])%list
          | None => None
          end
        else Some parts in
      match parts with
      | Some parts => ipv6_parts_ok parts
      | None => false
      end.

(** [IPv6Address(address)] on a string, with [_split_scope_id]: [true]
    when it returns. *)
Definition ipv6_address_ok (address : string) : bool :=
  if contains_char "/" address then false
  else
    match split_first "%" address with
    | None => ipv6_int_ok address
    | Some (addr, scope_id) =>
        nonempty scope_id && negb (contains_char "%" scope_id) && ipv6_int_ok addr
    end.

Inductive ip_version : Type := IPv4 | IPv6.

(** [ipaddress.ip_address(address)]; [None] is its [ValueError]. *)
Definition ip_address (address : string) : option ip_version :=
  match ipv4_address address with
  | Some _ => Some IPv4
  | None => if ipv6_address_ok address then Some IPv6 else None
  end.

(** *** The netloc checks of [urlsplit] *)

Fixpoint span_hex (s : string) : string * string :=
  match s with
  | EmptyString => (EmptyString, EmptyString)
  | String c r =>
      if is_hex_digit c then let '(a, b) := span_hex r in (String c a, b)
      else (EmptyString, s)
  end.

(** [re.match(r"\Av[a-fA-F0-9]+\..+\Z", hostname)] *)
Definition ipvfuture_ok (hostname : string) : bool :=
  match hostname with
  | String v r =>
      Ascii.eqb v "v" &&
      let '(hex, rest) := span_hex r in
      nonempty hex &&
      match rest with
      | String d tail =>
          Ascii.eqb d "." && nonempty tail && negb (contains_char lf tail)
      | EmptyString => false
      end
  | EmptyString => false
  end.

(** [_check_bracketed_host(hostname)]: [false] when it raises
    [ValueError]. *)
Definition check_bracketed_host (hostname : string) : bool :=
  if String.prefix "v" hostname then ipvfuture_ok hostname
  else
    match ip_address hostname with
    | Some IPv6 => true
    | _ => false
    end.

(** [_check_bracketed_netloc(netloc)]: [false] when it raises
    [ValueError]. *)
Definition check_bracketed_netloc (netloc : string) : bool :=
  let hostname_and_port :=
    match split_last "@" netloc with Some (_, h) => h | None => netloc end in
  match split_first "[" hostname_and_port with
  | Some (before_bracket, bracketed) =>
      if nonempty before_bracket then false
      else
        let '(hostname, port) :=
          match split_first "]" bracketed with
          | Some p => p
          | None => (bracketed, EmptyString)
          end in
        if nonempty port && negb (String.prefix ":" port) then false
        else check_bracketed_host hostname
  | None =>
      let hostname :=
        match split_first ":" hostname_and_port with
        | Some (h, _) => h
        | None => hostname_and_port
        end in
      check_bracketed_host hostname
  end.

(** The characters whose NFKC form (Unicode 14.0, the database of Python
    3.11) holds one of ['/'], ['?'], ['#'], ['@'] or [':'], by their UTF-8
    bytes: U+2047..U+2049 (double question and exclamation marks), U+2100,
    U+2101, U+2105, U+2106 (account-of signs), U+2A74 ([::=]), and the
    vertical, small and fullwidth forms U+FE13, U+FE16, U+FE55, U+FE56,
    U+FE5F, U+FE6B, U+FF03, U+FF0F, U+FF1A, U+FF1F, U+FF20. *)
Definition nfkc_delim_chars : list string :=
  Eval vm_compute in map utf8
    [0x2047; 0x2048; 0x2049; 0x2100; 0x2101; 0x2105; 0x2106; 0x2A74;
     0xFE13; 0xFE16; 0xFE55; 0xFE56; 0xFE5F; 0xFE6B; 0xFF03; 0xFF0F;
     0xFF1A; 0xFF1F; 0xFF20].

Fixpoint has_substring (w s : string) : bool :=
  String.prefix w s
  || match s with EmptyString => false | String _ r => has_substring w r end.

Definition is_ascii_byte (c : ascii) : bool := Nat.ltb (ascii_code c) 128.

(** [_checknetloc(netloc)]: [false] when it raises [ValueError].  Let [n]
    be the netloc without ['@'], [':'], ['#'] and ['?']; [urlsplit] passes
    netlocs without ['/'], so [n] holds none of ['/?#@:'].  No canonical
    decomposition holds one of these characters, so NFKC normalisation
    neither composes them away nor makes them out of other characters
    except through the compatibility mappings of [nfkc_delim_chars]:
    [unicodedata.normalize('NFKC', n)] holds one of them exactly when [n]
    holds a character of [nfkc_delim_chars], and it then differs from [n].
    The source raises exactly in that case. *)
Definition checknetloc (netloc : string) : bool :=
  if negb (nonempty netloc) || all_chars is_ascii_byte netloc then true
  else
    let n := remove_char "?" (remove_char "#" (remove_char ":" (remove_char "@" netloc))) in
    negb (existsb (fun w => has_substring w n) nfkc_delim_chars).

Record split_result : Type := SplitResult {
  sr_scheme : string; sr_netloc : string; sr_path : string;
  sr_query : string; sr_fragment : string }.

(** [urlsplit(url, scheme)] with [allow_fragments=True]; [None] is the
    [ValueError] it raises for a netloc with one bracket but not the
    other, a bracketed host that is neither an IPv6 address nor an
    IPvFuture literal, or characters that NFKC turns into delimiters. *)
Definition urlsplit (url scheme : string) : option split_result :=
  let url := remove_unsafe (lstrip_by is_c0_or_space url) in
  let scheme := remove_unsafe (rstrip_by is_c0_or_space (lstrip_by is_c0_or_space scheme)) in
  let '(scheme, url) :=
    match split_first ":" url with
    | Some (String c0 r as before, after) =>
        if is_ascii_alpha c0 && all_chars is_scheme_char before
        then (lower before, after) else (scheme, url)
    | _ => (scheme, url)
    end in
  match
    if starts_with_2slash url then
      let '(netloc, url) := split_netloc (substring 2 (String.length url - 2) url) in
      let has_open := contains_char "[" netloc in
      let has_close := contains_char "]" netloc in
      if (has_open && negb has_close) || (has_close && negb has_open) then None
      else if has_open && has_close && negb (check_bracketed_netloc netloc) then None
      else Some (netloc, url)
    else Some (EmptyString, url)
  with
  | None => None
  | Some (netloc, url) =>
      let '(url, fragment) :=
        match split_first "#" url with Some p => p | None => (url, EmptyString) end in
      let '(url, query) :=
        match split_first "?" url with Some p => p | None => (url, EmptyString) end in
      if checknetloc netloc then Some (SplitResult scheme netloc url query fragment)
      else None
  end.

(** [_splitparams(url)] *)
Definition splitparams (url : string) : string * string :=
  match split_last "/" url with
  | Some (dir, last) =>
      match split_first ";" last with
      | Some (a, b) => (dir ++ "/" ++ a, b)
      | None => (url, EmptyString)
      end
  | None =>
      match split_first ";" url with
      | Some p => p
      | None => (url, EmptyString)
      end
  end.

Record parse_result : Type := ParseResult {
  pr_scheme : string; pr_netloc : string; pr_path : string;
  pr_params : string; pr_query : string; pr_fragment : string }.

(** [urlparse(url, scheme)]; [None] is the [ValueError] of [urlsplit]. *)
Definition urlparse (url scheme : string) : option parse_result :=
  match urlsplit url scheme with
  | None => None
  | Some (SplitResult scheme netloc url query fragment) =>
      let '(url, params) :=
        if string_mem scheme uses_params && contains_char ";" url
        then splitparams url else (url, EmptyString) in
      Some (ParseResult scheme netloc url params query fragment)
  end.

(** [urlunsplit((scheme, netloc, url, query, fragment))] *)
Definition urlunsplit (scheme netloc url query fragment : string) : string :=
  let url :=
    if nonempty netloc
       || (nonempty scheme && string_mem scheme uses_netloc
           && negb (starts_with_2slash url))
    then "//" ++ netloc ++
         (if nonempty url && negb (String.prefix "/" url) then "/" ++ url else url)
    else url in
  let url := if nonempty scheme then scheme ++ ":" ++ url else url in
  let url := if nonempty query then url ++ "?" ++ query else url in
  if nonempty fragment then url ++ "#" ++ fragment else url.

(** [urlunparse((scheme, netloc, url, params, query, fragment))] *)
Definition urlunparse (scheme netloc url params query fragment : string) : string :=
  let url := if nonempty params then url ++ ";" ++ params else url in
  urlunsplit scheme netloc url query fragment.

(** [segments[1:-1] = filter(None, segments[1:-1])] *)
Definition filter_inner (segments : list string) : list string :=
  match segments with
  | x :: (_ :: _) as rest =>
      (x :: filter nonempty (removelast rest) ++ [last rest EmptyString])%list
  | _ => segments
  end.

(** The [for seg in segments] loop; [resolved] is [resolved_path] reversed. *)
Fixpoint resolve (segments resolved : list string) : list string :=
  match segments with
  | [] => resolved
  | seg :: rest =>
      if String.eqb seg ".." then resolve rest (tl resolved)
      else if String.eqb seg "." then resolve rest resolved
      else resolve rest (seg :: resolved)
  end.

(** [urljoin(base, url)] with [allow_fragments=True]; [None] is the
    [ValueError] of [urlparse] on [base] or on [url]. *)
Definition urljoin (base url : string) : option string :=
  if negb (nonempty base) then Some url
  else if negb (nonempty url) then Some base
  else
  match urlparse base "" with None => None
  | Some (ParseResult bscheme bnetloc bpath bparams bquery bfragment) =>
  match urlparse url bscheme with None => None
  | Some (ParseResult scheme netloc path params query fragment) =>
  Some (
  if negb (String.eqb scheme bscheme) || negb (string_mem scheme uses_relative)
  then url
  else if string_mem scheme uses_netloc && nonempty netloc
  then urlunparse scheme netloc path params query fragment
  else
  let netloc := if string_mem scheme uses_netloc then bnetloc else netloc in
  if negb (nonempty path) && negb (nonempty params)
  then urlunparse scheme netloc bpath bparams
         (if nonempty query then query else bquery) fragment
  else
  let base_parts := split_on "/" bpath in
  let base_parts :=
    if nonempty (last base_parts EmptyString) then removelast base_parts
    else base_parts in
  let segments :=
    if String.prefix "/" path then split_on "/" path
    else filter_inner (base_parts ++ split_on "/" path)%list in
  let resolved_path := rev (resolve segments []) in
  let resolved_path :=
    if string_mem (last segments EmptyString) ["."; ".."]
    then (resolved_path ++ [EmptyString])%list else resolved_path in
  let p := join "/" resolved_path in
  urlunparse scheme netloc (if nonempty p then p else "/") params query fragment)
  end end.

(** [_ALWAYS_SAFE] *)
Definition always_safe (c : ascii) : bool :=
  is_ascii_alpha c || is_ascii_digit c || contains_char c "_.-~".

Definition hex_digit (n : nat) : ascii :=
  if Nat.ltb n 10 then ascii_of_nat (48 + n) else ascii_of_nat (55 + n).

(** [quote(string, safe)] on the UTF-8 bytes of [string]: every byte that
    is neither always safe nor in [safe] becomes [%XX]. *)
Fixpoint quote (safe s : string) : string :=
  match s with
  | EmptyString => EmptyString
  | String c r =>
      if always_safe c || contains_char c safe then String c (quote safe r)
      else String "%" (String (hex_digit (ascii_code c / 16))
                         (String (hex_digit (ascii_code c mod 16)) (quote safe r)))
  end.

Fixpoint replace_char (c d : ascii) (s : string) : string :=
  match s with
  | EmptyString => EmptyString
  | String e r => String (if Ascii.eqb e c then d else e) (replace_char c d r)
  end.

(** [quote_plus(string)] ([safe=''] ) *)
Definition quote_plus (s : string) : string :=
  if negb (contains_char " " s) then quote "" s
  else replace_char " " "+" (quote " " s).

End UrlParse.

Import UrlParse.

Example urljoin_ex1 :
  urljoin "https://www.yellowpages.com" "/search?page=2"
  = Some "https://www.yellowpages.com/search?page=2".
Proof. vm_compute. reflexivity. Qed.
Example urljoin_ex2 :
  urljoin "http://a/b/c/d;p?q" "../../g" = Some "http://a/g".
Proof. vm_compute. reflexivity. Qed.
Example urljoin_ex3 :
  urljoin "http://a/b/c/d;p?q" "g;x?y#s" = Some "http://a/b/c/g;x?y#s".
Proof. vm_compute. reflexivity. Qed.
Example urljoin_ex4 :
  urljoin "http://a/b/c/d;p?q" "./" = Some "http://a/b/c/".
Proof. vm_compute. reflexivity. Qed.
Example quote_plus_ex : quote_plus "Chicago, IL" = "Chicago%2C+IL".
Proof. vm_compute. reflexivity. Qed.

(** ** [get_next_page_url] *)

(** How a call ends: it returns a value, the process leaves through
    [sys.exit(code)], or an uncaught exception propagates (the
    [AttributeError] of [parse_restaurants], the [ValueError] of [urljoin],
    the [UnicodeEncodeError] of [quote_plus] or of the file's encoder, the
    [OSError] of [open]). *)
Inductive outcome (A : Type) : Type :=
  | Returned (v : A)
  | SysExit (code : Z)
  | Raised.
Arguments Returned {A} v.
Arguments SysExit {A} code.
Arguments Raised {A}.

(** [None] is Python's [None]; the [if] tests the truthiness of the
    anchor (a found [Tag] is always true) and of its [href] value (the empty
    string is false).  The [ValueError] of [urljoin] propagates. *)
Definition get_next_page_url (soup : node) (base_url : string)
  : outcome (option string) :=
  match find "a" "next" soup with
  | Some next_button =>
      match get next_button "href" with
      | Some href =>
          if nonempty href then
            match urljoin base_url href with
            | Some u => Returned (Some u)
            | None => Raised
            end
          else Returned None
      | None => Returned None
      end
  | None => Returned None
  end.

(** ** [fetch_page] and the crawl loop [scrape_yellow_pages] *)

(** The network, seen from [fetch_page]: the parsed page for a URL, or
    [None] when [requests.get] or [raise_for_status] raises a
    [requests.RequestException]. *)
Definition fetcher : Type := string -> option node.

Definition base_url : string := "https://www.yellowpages.com".

Definition search_url_of (location : string) : string :=
  base_url ++ "/search?search_terms=restaurants&geo_location_terms="
  ++ quote_plus location.

(** [while search_url:] is false on [None] and on the empty string. *)
Definition truthy (search_url : option string) : bool :=
  match search_url with
  | Some u => nonempty u
  | None => false
  end.

(** The [while] loop, run for at most [fuel] iterations ([None] when the
    fuel runs out: the loop has not finished yet). *)
Fixpoint crawl (fuel : nat) (fetch : fetcher) (search_url : option string)
  (all_restaurants : list listing) : option (outcome (list listing)) :=
  match fuel with
  | O => None
  | S fuel' =>
      match search_url with
      | Some u =>
          if nonempty u then
            match fetch u with
            | None => Some (SysExit 1%Z)
            | Some soup =>
                match parse_restaurants soup with
                | None => Some Raised
                | Some restaurants =>
                    let all_restaurants := (all_restaurants ++ restaurants)%list in
                    match get_next_page_url soup base_url with
                    | Returned next => crawl fuel' fetch next all_restaurants
                    | SysExit code => Some (SysExit code)
                    | Raised => Some Raised
                    end
                end
            end
          else Some (Returned all_restaurants)
      | None => Some (Returned all_restaurants)
      end
  end.

(** [quote_plus(location)] raises [UnicodeEncodeError] before the first
    request when [location] holds a lone surrogate. *)
Definition scrape_yellow_pages (fuel : nat) (fetch : fetcher) (location : string)
  : option (outcome (list listing)) :=
  if encodes_utf8 location then crawl fuel fetch (Some (search_url_of location)) []
  else Some Raised.

(** ** [save_to_csv] *)

(** A CSV file as the rows handed to [csv.writer.writerow]. *)
Definition csv_rows : Type := list (list string).

(** The working directory, a flat directory of regular files in which the
    program may create files: each file's name (its bytes, as [os.fsencode]
    gives them) with its contents.  Once [open] has succeeded, the writes
    to the file are taken to succeed (no full disk). *)
Definition filesystem : Type := list (string * csv_rows).

Definition fs_lookup (name : string) (fs : filesystem) : option csv_rows :=
  match List.find (fun p => String.eqb (fst p) name) fs with
  | Some (_, c) => Some c
  | None => None
  end.

(** [open(filename, 'w')] creates or truncates the file. *)
Definition fs_write (name : string) (c : csv_rows) (fs : filesystem) : filesystem :=
  (name, c) :: filter (fun p => negb (String.eqb (fst p) name)) fs.

(** [os.fsencode(filename)]: UTF-8 with [surrogateescape], which turns the
    lone surrogates U+DC80..U+DCFF back into the bytes 80..FF and fails
    ([UnicodeEncodeError]) on the other lone surrogates. *)
Fixpoint fsencode (s : string) : option string :=
  match s with
  | EmptyString => Some EmptyString
  | String c r =>
      match r with
      | String d (String e r') =>
          if Nat.eqb (ascii_code c) 237 && Nat.leb 160 (ascii_code d) then
            if Nat.eqb (ascii_code d) 178 then option_map (String e) (fsencode r')
            else if Nat.eqb (ascii_code d) 179
            then option_map (String (ascii_of_nat (ascii_code e + 64))) (fsencode r')
            else None
          else option_map (String c) (fsencode r)
      | _ => option_map (String c) (fsencode r)
      end
  end.

Definition nul : ascii := ascii_of_nat 0.

(** [open(filename, 'w', ...)]: the name of the file it opens, or [None]
    when it raises: [UnicodeEncodeError] for a name [os.fsencode] rejects,
    [ValueError] for an embedded null byte, [FileNotFoundError] for the
    empty name and for a name with a ['/'] (the working directory has no
    subdirectories), [IsADirectoryError] for ["."] and [".."], and
    [OSError] ([ENAMETOOLONG]) for a name longer than 255 bytes. *)
Definition open_path (filename : string) : option string :=
  match fsencode filename with
  | None => None
  | Some path =>
      if contains_char nul path then None
      else if negb (nonempty path) then None
      else if contains_char "/" path then None
      else if string_mem path ["."; ".."] then None
      else if Nat.ltb 255 (String.length path) then None
      else Some path
  end.

Definition csv_header : list string := ["Restaurant Name"; "Phone Number"].

(** [writer.writerow(row)] on the file opened with [encoding='utf-8']: the
    line is encoded as it is written, so a field holding a lone surrogate
    raises [UnicodeEncodeError] ([None]) and adds nothing. *)
Definition writerow (row : list string) (written : csv_rows) : option csv_rows :=
  if forallb encodes_utf8 row then Some (written ++ [row])%list else None.

(** The [for name, phone in data] loop: one [writerow] per pair, up to the
    first that raises.  The second component is what the file holds. *)
Fixpoint write_rows (data : list listing) (written : csv_rows)
  : outcome unit * csv_rows :=
  match data with
  | [] => (Returned tt, written)
  | (name, phone) :: rest =>
      match writerow [name; phone] written with
      | Some written => write_rows rest written
      | None => (Raised, written)
      end
  end.

(** The [with] block closes the file also when an exception leaves it, so
    the rows written before the exception stay in the file. *)
Definition save_to_csv (data : list listing) (filename : string) (fs : filesystem)
  : outcome unit * filesystem :=
  match open_path filename with
  | None => (Raised, fs)
  | Some path =>
      match writerow csv_header [] with
      | Some written =>
          let '(o, written) := write_rows data written in
          (o, fs_write path written fs)
      | None => (Raised, fs_write path [] fs)
      end
  end.

(** The bytes [csv.writer] (dialect [excel]: delimiter [','], quote char the
    double-quote character, doubled quotes, line terminator ["\r\n"], [QUOTE_MINIMAL]) puts
    in the file for the rows. *)
Definition dquote : ascii := ascii_of_nat 34.

Definition needs_quotes (field : string) : bool :=
  contains_char "," field || contains_char dquote field
  || contains_char cr field || contains_char lf field.

Fixpoint double_quotes (s : string) : string :=
  match s with
  | EmptyString => EmptyString
  | String c r =>
      if Ascii.eqb c dquote then String c (String c (double_quotes r))
      else String c (double_quotes r)
  end.

Definition csv_field (field : string) : string :=
  if needs_quotes field
  then String dquote (double_quotes field ++ String dquote EmptyString)
  else field.

Definition crlf : string := String cr (String lf EmptyString).

Definition csv_line (row : list string) : string :=
  match row with
  | [f] => if nonempty f then csv_field f
           else String dquote (String dquote EmptyString)
  | _ => join "," (map csv_field row)
  end ++ crlf.

Definition csv_text (rows : csv_rows) : string :=
  fold_right String.append EmptyString (map csv_line rows).

(** ** The [__main__] block *)

Definition output_filename_of (location : string) : string :=
  "restaurants_without_websites_" ++ quote_plus location ++ ".csv".

(** [argv] is [sys.argv]; the result is the exit status and the working
    directory afterwards ([None]: the crawl has not finished within
    [fuel] iterations).  An uncaught exception exits with status 1. *)
Definition main (fuel : nat) (fetch : fetcher) (argv : list string)
  (fs : filesystem) : option (Z * filesystem) :=
  match argv with
  | _ :: location :: _ =>
      match scrape_yellow_pages fuel fetch location with
      | None => None
      | Some (Returned results) =>
          match save_to_csv results (output_filename_of location) fs with
          | (Returned _, fs') => Some (0%Z, fs')
          | (SysExit code, fs') => Some (code, fs')
          | (Raised, fs') => Some (1%Z, fs')
          end
      | Some (SysExit code) => Some (code, fs)
      | Some Raised => Some (1%Z, fs)
      end
  | _ => Some (1%Z, fs)
  end.

(** ** Concrete documents *)

Definition el (tag cls : string) (kids : list node) : node := Elem tag [cls] [] kids.

Definition link (cls href : string) (kids : list node) : node :=
  Elem "a" [cls] [("href", href)] kids.

Definition document (kids : list node) : node := Elem "[document]" [] [] kids.

(** A listing with a website link and one without, on a single page. *)
Definition chicago_page : node :=
  document
    [ el "div" "result"
        [ el "div" "info"
            [ el "a" "business-name" [Text "  The Site Grill "];
              link "track-visit-website" "https://sitegrill.example" [Text "Website"];
              el "div" "phones" [Text "(312) 555-0199"] ] ];
      el "div" "result"
        [ el "div" "info"
            [ Elem "h2" [] [] [el "a" "business-name" [Text (String lf "Joe's Diner ")]];
              el "div" "phones" [Text " (312) 555-0100"] ] ] ].

Example chicago_page_parse :
  parse_restaurants chicago_page = Some [("Joe's Diner", "(312) 555-0100")].
Proof. vm_compute. reflexivity. Qed.

(** ** Properties of the extractor *)

Definition has_website (b : node) : bool :=
  match find "a" "track-visit-website" b with Some _ => true | None => false end.

(** What the loop body extracts from a block it keeps. *)
Definition extracted (b : node) (l : listing) : Prop :=
  exists name_el, find "a" "business-name" b = Some name_el
  /\ fst l = strip (text name_el)
  /\ snd l = match find "div" "phones" b with
             | Some p => strip (text p)
             | None => no_phone
             end.

Lemma parse_loop_spec (bs : list node) (acc rs : list listing) :
  parse_loop bs acc = Some rs ->
  exists rs', rs = (acc ++ rs')%list
  /\ Forall2 extracted (filter (fun b => negb (has_website b)) bs) rs'.
Proof.
  revert acc. induction bs as [|b bs IH]; intros acc H; simpl in H.
  - injection H as <-. exists []. rewrite app_nil_r. split; [reflexivity | constructor].
  - destruct (find "a" "business-name" b) as [nm|] eqn:Hn; [|discriminate].
    simpl. unfold has_website at 1.
    destruct (find "a" "track-visit-website" b) as [w|] eqn:Hw.
    + apply IH in H. exact H.
    + apply IH in H. destruct H as [rs' [-> Hf]].
      eexists. split.
      * rewrite <- app_assoc. reflexivity.
      * constructor; [|exact Hf].
        exists nm. repeat split; assumption.
Qed.

Lemma parse_loop_none (bs : list node) (acc : list listing) :
  parse_loop bs acc = None <-> Exists (fun b => find "a" "business-name" b = None) bs.
Proof.
  revert acc. induction bs as [|b bs IH]; intros acc; simpl.
  - split; [discriminate | intros H; inversion H].
  - destruct (find "a" "business-name" b) as [nm|] eqn:Hn.
    + rewrite IH. split.
      * intros H. apply Exists_cons_tl. exact H.
      * intros H. inversion H; subst; [congruence | assumption].
    + split; [intros _; apply Exists_cons_hd; exact Hn | reflexivity].
Qed.

(** [C1]: every listing block holding an [a.track-visit-website] element is
    left out of the result of [parse_restaurants], whatever its name and
    phone; the blocks without one give, in document order, exactly the
    returned listings, each named after its own name element. *)
Theorem parse_restaurants_excludes_websites (soup : node) (rs : list listing) :
  parse_restaurants soup = Some rs ->
  Forall2 (fun b l => exists name_el, find "a" "business-name" b = Some name_el
                                      /\ fst l = strip (text name_el))
    (filter (fun b => negb (has_website b)) (find_all "div" "info" soup)) rs.
Proof.
  unfold parse_restaurants. intros H.
  destruct (parse_loop_spec _ _ _ H) as [rs' [-> Hf]]. simpl.
  eapply Forall2_impl; [|exact Hf].
  intros b l [nm [Hn [Hfst _]]]. exists nm. split; assumption.
Qed.

Lemma parse_restaurants_excludes_websites_witness :
  parse_restaurants chicago_page = Some [("Joe's Diner", "(312) 555-0100")]
  /\ Forall2 (fun b l => exists name_el, find "a" "business-name" b = Some name_el
                                         /\ fst l = strip (text name_el))
       (filter (fun b => negb (has_website b)) (find_all "div" "info" chicago_page))
       [("Joe's Diner", "(312) 555-0100")].
Proof.
  split; [vm_compute; reflexivity|].
  apply parse_restaurants_excludes_websites. vm_compute. reflexivity.
Defined.

(** [C2]: the phone of every returned listing is the stripped text of its
    block's [div.phones] element, or the sentinel
    ["No phone number available"] when the block has none. *)
Theorem parse_restaurants_phone (soup : node) (rs : list listing) :
  parse_restaurants soup = Some rs ->
  Forall2 (fun b l => snd l = match find "div" "phones" b with
                              | Some p => strip (text p)
                              | None => "No phone number available"
                              end)
    (filter (fun b => negb (has_website b)) (find_all "div" "info" soup)) rs.
Proof.
  unfold parse_restaurants. intros H.
  destruct (parse_loop_spec _ _ _ H) as [rs' [-> Hf]]. simpl.
  eapply Forall2_impl; [|exact Hf].
  intros b l [nm [_ [_ Hsnd]]]. exact Hsnd.
Qed.

Definition no_phone_page : node :=
  document
    [ el "div" "info" [ el "a" "business-name" [Text "Corner Cafe"] ];
      el "div" "info" [ el "a" "business-name" [Text "Taqueria"];
                        el "div" "phones" [Text " (312) 555-0142 "] ] ].

Lemma parse_restaurants_phone_witness :
  parse_restaurants no_phone_page
  = Some [("Corner Cafe", "No phone number available");
          ("Taqueria", "(312) 555-0142")]
  /\ Forall2 (fun b l => snd l = match find "div" "phones" b with
                                 | Some p => strip (text p)
                                 | None => "No phone number available"
                                 end)
       (filter (fun b => negb (has_website b)) (find_all "div" "info" no_phone_page))
       [("Corner Cafe", "No phone number available");
        ("Taqueria", "(312) 555-0142")].
Proof.
  split; [vm_compute; reflexivity|].
  apply parse_restaurants_phone. vm_compute. reflexivity.
Defined.

(** [C9]: [parse_restaurants] fails (the [AttributeError] of
    [.find("a", class_="business-name").text]) exactly when some listing
    block lacks its name element, whether or not that block has a website
    link; a block with a website link and no name makes it fail. *)
Theorem parse_restaurants_needs_names (soup : node) :
  (parse_restaurants soup = None
   <-> Exists (fun b => find "a" "business-name" b = None) (find_all "div" "info" soup))
  /\ parse_restaurants
       (document [ el "div" "info" [ link "track-visit-website" "https://w.example" [] ] ])
     = None.
Proof.
  split.
  - unfold parse_restaurants. apply parse_loop_none.
  - vm_compute. reflexivity.
Qed.

(** ** Facts about the string helpers *)

Lemma sappend_assoc (a b c : string) : (a ++ b) ++ c = a ++ (b ++ c).
Proof. induction a as [|x a IH]; simpl; [reflexivity | now rewrite IH]. Qed.

Lemma sappend_nil_r (a : string) : a ++ EmptyString = a.
Proof. induction a as [|x a IH]; simpl; [reflexivity | now rewrite IH]. Qed.

Lemma contains_char_app (c : ascii) (a b : string) :
  contains_char c (a ++ b) = contains_char c a || contains_char c b.
Proof. induction a as [|x a IH]; simpl; [reflexivity | now rewrite IH, orb_assoc]. Qed.

Lemma all_chars_app (p : ascii -> bool) (a b : string) :
  all_chars p (a ++ b) = all_chars p a && all_chars p b.
Proof. induction a as [|x a IH]; simpl; [reflexivity | now rewrite IH, andb_assoc]. Qed.

(** A string none of whose characters is in [cs]. *)
Definition avoids (cs s : string) : bool :=
  all_chars (fun c => negb (contains_char c cs)) s.

Lemma avoids_app (cs a b : string) : avoids cs (a ++ b) = avoids cs a && avoids cs b.
Proof. apply all_chars_app. Qed.

Lemma avoids_contains (cs s : string) (c : ascii) :
  avoids cs s = true -> contains_char c cs = true -> contains_char c s = false.
Proof.
  intros Hs Hc. unfold avoids in Hs. induction s as [|d s IH]; simpl in *; [reflexivity|].
  apply andb_true_iff in Hs as [Hd Hs]. rewrite (IH Hs), orb_false_r.
  destruct (Ascii.eqb c d) eqn:E; [|reflexivity].
  apply Ascii.eqb_eq in E. subst. rewrite Hc in Hd. discriminate.
Qed.

Lemma avoids_weaken (cs cs' s : string) :
  (forall c, contains_char c cs = true -> contains_char c cs' = true) ->
  avoids cs' s = true -> avoids cs s = true.
Proof.
  intros Hsub. unfold avoids. induction s as [|d s IH]; simpl; [reflexivity|].
  intros H. apply andb_true_iff in H as [Hd Hs]. rewrite (IH Hs), andb_true_r.
  destruct (contains_char d cs) eqn:E; [|reflexivity].
  rewrite (Hsub _ E) in Hd. discriminate.
Qed.

Lemma split_first_none (c : ascii) (s : string) :
  contains_char c s = false -> split_first c s = None.
Proof.
  induction s as [|d s IH]; simpl; [reflexivity|].
  intros H. apply orb_false_iff in H as [Hd Hs]. now rewrite Hd, IH.
Qed.

Lemma split_first_app (c : ascii) (a b : string) :
  contains_char c a = false -> split_first c (a ++ String c b) = Some (a, b).
Proof.
  induction a as [|d a IH]; simpl; intros H.
  - now rewrite Ascii.eqb_refl.
  - apply orb_false_iff in H as [Hd Ha]. now rewrite Hd, IH.
Qed.

Lemma remove_char_none (c : ascii) (s : string) :
  contains_char c s = false -> remove_char c s = s.
Proof.
  induction s as [|d s IH]; simpl; [reflexivity|].
  intros H. apply orb_false_iff in H as [Hd Hs]. now rewrite Hd, IH.
Qed.


Definition unsafe_chars : string := String tab (String cr (String lf EmptyString)).


Lemma remove_unsafe_id (s : string) :
  avoids unsafe_chars s = true -> remove_unsafe s = s.
Proof.
  intros H. unfold remove_unsafe.
  rewrite (remove_char_none tab), (remove_char_none cr), (remove_char_none lf);
    [reflexivity | ..]; apply (avoids_contains _ _ _ H); reflexivity.
Qed.





Lemma substring_0_length (s : string) : substring 0 (String.length s) s = s.
Proof. induction s as [|d s IH]; simpl; [reflexivity | now rewrite IH]. Qed.

Lemma split_netloc_app (a b : string) :
  avoids "/?#" a = true ->
  (b = EmptyString \/ exists c r, b = String c r /\ contains_char c "/?#" = true) ->
  split_netloc (a ++ b) = (a, b).
Proof.
  intros Ha Hb. unfold avoids in Ha.
  induction a as [|d a IH]; cbn [split_netloc append all_chars] in *.
  - destruct Hb as [-> | [c [r [-> Hc]]]]; cbn [split_netloc]; [reflexivity|].
    now rewrite Hc.
  - apply andb_true_iff in Ha as [Hd Ha].
    apply negb_true_iff in Hd. rewrite Hd, (IH Ha). reflexivity.
Qed.

(** ** Hrefs in normal form *)


(** An optional query: absent, or ['?'] and a non-empty text without
    ['#'], tab, CR or LF. *)
Definition query_part (oq : option string) : string :=
  match oq with None => EmptyString | Some q => "?" ++ q end.

Definition query_value (oq : option string) : string :=
  match oq with None => EmptyString | Some q => q end.

Definition query_ok (oq : option string) : bool :=
  match oq with
  | None => true
  | Some q => nonempty q && avoids ("#" ++ unsafe_chars) q
  end.

(** The checks [urlsplit] makes on a netloc pass: a ['['] and a [']'] come
    together or not at all, a bracketed host is an IPv6 address or an
    IPvFuture literal, and NFKC turns no character into a delimiter. *)
Definition netloc_valid (h : string) : bool :=
  let has_open := contains_char "[" h in
  let has_close := contains_char "]" h in
  negb ((has_open && negb has_close) || (has_close && negb has_open))
  && negb (has_open && has_close && negb (check_bracketed_netloc h))
  && checknetloc h.

(** A host: non-empty, without ['/'], ['?'], ['#'], tab, CR or LF, and
    accepted by [urlsplit]. *)
Definition host_ok (h : string) : bool :=
  nonempty h && avoids ("/?#" ++ unsafe_chars) h && netloc_valid h.

Lemma query_ok_avoids oq : query_ok oq = true -> forall c, contains_char c ("#" ++ unsafe_chars) = true -> contains_char c (query_value oq) = false.
Proof. destruct oq as [q|]; simpl; [|reflexivity]. intros H c Hc. apply andb_true_iff in H as [_ H]. exact (avoids_contains _ _ _ H Hc). Qed.

Lemma contains_query_part c oq : contains_char c (query_part oq) = match oq with None => false | Some q => Ascii.eqb c "?" || contains_char c q end.
Proof. destruct oq; reflexivity. Qed.



Lemma avoids_intro cs s : (forall c, contains_char c cs = true -> contains_char c s = false) -> avoids cs s = true.
Proof.
  unfold avoids. induction s as [|d s IH]; intros H; cbn [all_chars]; [reflexivity|].
  apply andb_true_iff. split.
  - destruct (contains_char d cs) eqn:E; [|reflexivity].
    specialize (H d E). cbn [contains_char] in H. rewrite Ascii.eqb_refl in H. discriminate.
  - apply IH. intros c Hc. specialize (H c Hc). cbn [contains_char] in H.
    apply orb_false_iff in H as [_ H]. exact H.
Qed.

Lemma urlparse_base : urlparse base_url "" = Some (ParseResult "https" "www.yellowpages.com" "" "" "" "").
Proof. vm_compute. reflexivity. Qed.








Lemma avoids_app_r a b s : avoids (a ++ b) s = true -> avoids b s = true.
Proof. apply avoids_weaken. intros c H. rewrite contains_char_app, H. apply orb_true_r. Qed.

Lemma avoids_app_l a b s : avoids (a ++ b) s = true -> avoids a s = true.
Proof. apply avoids_weaken. intros c H. rewrite contains_char_app, H. reflexivity. Qed.






Lemma prefix_2slash x : String.prefix "//" ("//" ++ x) = true.
Proof. destruct x; reflexivity. Qed.

Lemma substring_after_2slash x : substring 2 (String.length ("//" ++ x) - 2) ("//" ++ x) = x.
Proof.
  cbn [append String.length substring].
  replace (S (S (String.length x)) - 2) with (String.length x) by (simpl; rewrite Nat.sub_0_r; reflexivity).
  apply substring_0_length.
Qed.

Definition abs_path_ok (p : string) : bool := avoids ("?#;" ++ unsafe_chars) p.

Lemma urlsplit_https_any n p oq sch : host_ok n = true -> abs_path_ok p = true -> query_ok oq = true ->
  urlsplit ("https://" ++ n ++ "/" ++ p ++ query_part oq) sch
  = Some (SplitResult "https" n ("/" ++ p) (query_value oq) "").
Proof.
  intros Hn Hp Hq.
  unfold host_ok in Hn. apply andb_true_iff in Hn as [Hn Hv].
  apply andb_true_iff in Hn as [Hne Hn].
  unfold netloc_valid in Hv. apply andb_true_iff in Hv as [Hv Hck].
  apply andb_true_iff in Hv as [Hv1 Hv2]. apply negb_true_iff in Hv1, Hv2.
  assert (Hpq : forall c, contains_char c ("#" ++ unsafe_chars) = true ->
                  contains_char c (p ++ query_part oq) = false).
  { intros c Hc. rewrite contains_char_app, contains_query_part.
    rewrite (avoids_contains _ _ c Hp).
    2:{ revert Hc. destruct c as [[] [] [] [] [] [] [] []]; vm_compute; congruence. }
    destruct oq as [q|]; [|reflexivity].
    pose proof (query_ok_avoids _ Hq c Hc) as H. cbn [query_value] in H. rewrite H, orb_false_r.
    revert Hc. destruct c as [[] [] [] [] [] [] [] []]; vm_compute; congruence. }
  assert (Hu : avoids unsafe_chars ("https://" ++ n ++ "/" ++ p ++ query_part oq) = true).
  { rewrite !avoids_app. rewrite (avoids_app_r _ _ _ Hn).
    replace (avoids unsafe_chars "https://") with true by reflexivity.
    replace (avoids unsafe_chars "/") with true by reflexivity.
    rewrite <- avoids_app. apply avoids_intro. intros c Hc. apply Hpq.
    revert Hc. destruct c as [[] [] [] [] [] [] [] []]; vm_compute; congruence. }
  unfold urlsplit.
  replace (lstrip_by is_c0_or_space ("https://" ++ n ++ "/" ++ p ++ query_part oq))
    with ("https://" ++ n ++ "/" ++ p ++ query_part oq) by reflexivity.
  rewrite (remove_unsafe_id _ Hu).
  change ("https://" ++ n ++ "/" ++ p ++ query_part oq)
    with ("https" ++ String ":" ("//" ++ n ++ "/" ++ p ++ query_part oq)).
  rewrite split_first_app by reflexivity.
  replace (is_ascii_alpha "h" && all_chars is_scheme_char "https") with true by reflexivity.
  replace (lower "https") with "https" by reflexivity.
  cbv beta iota zeta.
  rewrite prefix_2slash, substring_after_2slash.
  rewrite split_netloc_app.
  2:{ exact (avoids_app_l _ _ _ Hn). }
  2:{ right. do 2 eexists. split; reflexivity. }
  cbv beta iota zeta. rewrite Hv1, Hv2. cbv beta iota zeta.
  rewrite split_first_none.
  2:{ change (Ascii.eqb "#" "/" || contains_char "#" (p ++ query_part oq) = false).
      rewrite Hpq by reflexivity. reflexivity. }
  cbv beta iota zeta. rewrite Hck.
  destruct oq as [q|]; cbn [query_part query_value append].
  - change (String "/" (p ++ String "?" q)) with (String "/" p ++ String "?" q).
    rewrite split_first_app; [reflexivity|].
    cbn [contains_char]. rewrite (avoids_contains _ _ "?" Hp) by reflexivity. reflexivity.
  - rewrite sappend_nil_r, split_first_none; [reflexivity|].
    cbn [contains_char]. rewrite (avoids_contains _ _ "?" Hp) by reflexivity. reflexivity.
Qed.



(** ** Properties of the paginator *)

(** A page whose pagination bar has a [a.next] anchor to [href]. *)
Definition next_page_doc (href : string) : node :=
  document [ el "div" "pagination" [ link "next" href [Text "Next"] ] ].


Lemma crawl_last_page (fetch : fetcher) (u : string) (soup : node) (rs acc : list listing)
  (n : nat) :
  nonempty u = true -> fetch u = Some soup -> parse_restaurants soup = Some rs ->
  get_next_page_url soup base_url = Returned None ->
  crawl (S (S n)) fetch (Some u) acc = Some (Returned (acc ++ rs)%list).
Proof. intros Hu Hf Hp Hn. cbn [crawl]. now rewrite Hu, Hf, Hp, Hn. Qed.




(** [C5]: without a [a.next] anchor, or with one that has no [href],
    [get_next_page_url] returns [None], and the crawl loop stops right after
    that page with its listings appended to what it had gathered. *)
Theorem get_next_page_url_no_next (soup : node) :
  (find "a" "next" soup = None
   \/ exists nb, find "a" "next" soup = Some nb /\ get nb "href" = None) ->
  (forall base, get_next_page_url soup base = Returned None)
  /\ (forall fetch u acc rs n,
        nonempty u = true -> fetch u = Some soup -> parse_restaurants soup = Some rs ->
        crawl (S (S n)) fetch (Some u) acc = Some (Returned (acc ++ rs)%list)).
Proof.
  intros H.
  assert (Hn : forall base, get_next_page_url soup base = Returned None).
  { intros base. unfold get_next_page_url.
    destruct H as [-> | [nb [-> Hg]]]; [reflexivity | now rewrite Hg]. }
  split; [exact Hn|].
  intros fetch u acc rs n Hu Hf Hp. now apply (crawl_last_page fetch u soup).
Qed.

Lemma get_next_page_url_no_next_witness :
  (forall base, get_next_page_url chicago_page base = Returned None)
  /\ crawl 2 (fun _ => Some chicago_page) (Some "https://www.yellowpages.com/search") []
     = Some (Returned [("Joe's Diner", "(312) 555-0100")]).
Proof.
  destruct (get_next_page_url_no_next chicago_page) as [H1 H2].
  - left. vm_compute. reflexivity.
  - split; [exact H1|].
    apply (H2 (fun _ => Some chicago_page) _ [] _ 0); vm_compute; reflexivity.
Defined.

(** [C10]: an [a.next] anchor whose [href] is the empty string is treated
    like one with no [href]: [get_next_page_url] returns [None] instead of
    [urljoin(base_url, "")] (which is the base URL itself), and the crawl
    loop stops after that page. *)
Theorem get_next_page_url_empty_href (soup nb : node) :
  find "a" "next" soup = Some nb -> get nb "href" = Some EmptyString ->
  get_next_page_url soup base_url = Returned None
  /\ urljoin base_url EmptyString = Some base_url
  /\ (forall fetch u acc rs n,
        nonempty u = true -> fetch u = Some soup -> parse_restaurants soup = Some rs ->
        crawl (S (S n)) fetch (Some u) acc = Some (Returned (acc ++ rs)%list)).
Proof.
  intros Hf Hg.
  assert (Hn : get_next_page_url soup base_url = Returned None)
    by (unfold get_next_page_url; now rewrite Hf, Hg).
  split; [exact Hn | split; [reflexivity|]].
  intros fetch u acc rs n Hu Hfe Hp. now apply (crawl_last_page fetch u soup).
Qed.

Lemma get_next_page_url_empty_href_witness :
  get_next_page_url (next_page_doc "") base_url = Returned None.
Proof.
  apply (get_next_page_url_empty_href _ (link "next" "" [Text "Next"]));
    vm_compute; reflexivity.
Defined.

(** ** The crawl loop *)

Lemma crawl_step (n : nat) (fetch : fetcher) (u : string) (acc : list listing) :
  crawl (S n) fetch (Some u) acc =
  if nonempty u then
    match fetch u with
    | None => Some (SysExit 1%Z)
    | Some soup =>
        match parse_restaurants soup with
        | None => Some Raised
        | Some rs =>
            match get_next_page_url soup base_url with
            | Returned next => crawl n fetch next (acc ++ rs)%list
            | SysExit code => Some (SysExit code)
            | Raised => Some Raised
            end
        end
    end
  else Some (Returned acc).
Proof. reflexivity. Qed.

Lemma crawl_mono (n m : nat) (fetch : fetcher) (c : option string) (acc : list listing)
  (o : outcome (list listing)) :
  crawl n fetch c acc = Some o -> n <= m -> crawl m fetch c acc = Some o.
Proof.
  revert m c acc. induction n as [|n IH]; intros m c acc H Hle; [discriminate|].
  destruct m as [|m]; [lia|].
  cbn [crawl] in *. destruct c as [u|]; [|exact H].
  destruct (nonempty u); [|exact H].
  destruct (fetch u) as [soup|]; [|exact H].
  destruct (parse_restaurants soup); [|exact H].
  destruct (get_next_page_url soup base_url); [apply IH; [exact H | lia] | exact H | exact H].
Qed.

Lemma crawl_det (n m : nat) (fetch : fetcher) (c : option string) (acc : list listing)
  (o o' : outcome (list listing)) :
  crawl n fetch c acc = Some o -> crawl m fetch c acc = Some o' -> o = o'.
Proof.
  intros H H'.
  apply (crawl_mono _ (Nat.max n m)) in H; [|lia].
  apply (crawl_mono _ (Nat.max n m)) in H'; [|lia].
  congruence.
Qed.

Lemma get_next_page_url_no_exit (soup : node) (base : string) (code : Z) :
  get_next_page_url soup base <> SysExit code.
Proof.
  unfold get_next_page_url.
  destruct (find "a" "next" soup) as [nb|]; [|discriminate].
  destruct (get nb "href") as [href|]; [|discriminate].
  destruct (nonempty href); [|discriminate].
  destruct (urljoin base href); discriminate.
Qed.

Section TotalFetch.

(** A network on which every request succeeds: [docs u] is the page at [u]. *)
Variable docs : string -> node.

Definition fetch_of : fetcher := fun u => Some (docs u).

(** [chain c ps]: following the next links from the cursor [c], the loop
    visits the pages [ps] and then finds no next URL. *)
Inductive chain : option string -> list node -> Prop :=
  | chain_stop (c : option string) : truthy c = false -> chain c []
  | chain_step (u : string) (c : option string) (ps : list node) :
      nonempty u = true -> get_next_page_url (docs u) base_url = Returned c ->
      chain c ps -> chain (Some u) (docs u :: ps).

(** The per-page extraction results, concatenated in visiting order;
    [None] if the extractor faults on one of the pages. *)
Fixpoint extract_all (ps : list node) : option (list listing) :=
  match ps with
  | [] => Some []
  | p :: ps' =>
      match parse_restaurants p with
      | None => None
      | Some rs => option_map (app rs) (extract_all ps')
      end
  end.

Definition expected (acc : list listing) (ps : list node) : outcome (list listing) :=
  match extract_all ps with
  | Some rs => Returned (acc ++ rs)%list
  | None => Raised
  end.

Lemma crawl_chain (c : option string) (ps : list node) :
  chain c ps -> forall acc, crawl (S (length ps)) fetch_of c acc = Some (expected acc ps).
Proof.
  induction 1 as [c Hc | u c ps Hu Hg Hch IH]; intros acc.
  - unfold expected. cbn [crawl extract_all]. rewrite app_nil_r.
    destruct c as [u|]; [cbn [truthy] in Hc; now rewrite Hc | reflexivity].
  - cbn [length]. rewrite crawl_step, Hu. change (fetch_of u) with (Some (docs u)); cbv beta iota.
    unfold expected. cbn [extract_all].
    destruct (parse_restaurants (docs u)) as [rs|]; [|reflexivity].
    rewrite Hg, IH. unfold expected.
    destruct (extract_all ps) as [rs'|]; cbn [option_map]; [|reflexivity].
    now rewrite app_assoc.
Qed.

Lemma crawl_no_chain (c : option string) :
  (~ exists ps, chain c ps) ->
  forall n acc, crawl n fetch_of c acc = None \/ crawl n fetch_of c acc = Some Raised.
Proof.
  intros Hno n. revert c Hno. induction n as [|n IH]; intros c Hno acc; [now left|].
  cbn [crawl].
  destruct (truthy c) eqn:Ht.
  2:{ exfalso. apply Hno. exists []. now constructor. }
  destruct c as [u|]; [|discriminate]. cbn [truthy] in Ht. rewrite Ht.
  change (fetch_of u) with (Some (docs u)); cbv beta iota.
  destruct (parse_restaurants (docs u)) as [rs|]; [|now right].
  destruct (get_next_page_url (docs u) base_url) as [c'| code |] eqn:Eg.
  - apply IH. intros [ps Hps]. apply Hno. exists (docs u :: ps). econstructor; eassumption.
  - exfalso. exact (get_next_page_url_no_exit _ _ _ Eg).
  - now right.
Qed.

Lemma crawl_no_chain_no_fault (c : option string) :
  (~ exists ps, chain c ps) -> (forall u, parse_restaurants (docs u) <> None) ->
  (forall u, get_next_page_url (docs u) base_url <> Raised) ->
  forall n acc, crawl n fetch_of c acc = None.
Proof.
  intros Hno Hp Hr n. revert c Hno. induction n as [|n IH]; intros c Hno acc; [reflexivity|].
  cbn [crawl].
  destruct (truthy c) eqn:Ht.
  2:{ exfalso. apply Hno. exists []. now constructor. }
  destruct c as [u|]; [|discriminate]. cbn [truthy] in Ht. rewrite Ht.
  change (fetch_of u) with (Some (docs u)); cbv beta iota.
  destruct (parse_restaurants (docs u)) as [rs|] eqn:E; [|now destruct (Hp u)].
  destruct (get_next_page_url (docs u) base_url) as [c'| code |] eqn:Eg.
  - apply IH. intros [ps Hps]. apply Hno. exists (docs u :: ps). econstructor; eassumption.
  - exfalso. exact (get_next_page_url_no_exit _ _ _ Eg).
  - now destruct (Hr u).
Qed.

End TotalFetch.

(** A page with a nameless listing block whose next link points back to a
    result page of the same shape. *)
Definition nameless_loop_page : node :=
  document
    [ el "div" "info" [ el "div" "phones" [Text "(312) 555-0111"] ];
      el "div" "pagination" [ link "next" "/search?page=2" [Text "Next"] ] ].

Lemma chain_nameless_loop (c : option string) (ps : list node) :
  chain (fun _ => nameless_loop_page) c ps -> truthy c = true -> False.
Proof.
  induction 1 as [c Hc | u c ps Hu Hg Hch IH]; intros Ht; [congruence|].
  apply IH. vm_compute in Hg. injection Hg as <-. reflexivity.
Qed.

(** A result page whose next link has an unclosed bracket in its netloc. *)
Definition bad_next_page : node :=
  document
    [ el "div" "info" [ el "a" "business-name" [Text "Corner Cafe"] ];
      el "div" "pagination" [ link "next" "//[x" [Text "Next"] ] ].

Lemma chain_bad_next (c : option string) (ps : list node) :
  chain (fun _ => bad_next_page) c ps -> truthy c = true -> False.
Proof.
  induction 1 as [c Hc | u c ps Hu Hg Hch IH]; intros Ht; [congruence|].
  vm_compute in Hg. discriminate.
Qed.

(** [C3] (counterexample): the next chain of [nameless_loop_page] never
    ends, yet the crawl stops after one page, with the extractor's fault;
    on [bad_next_page] the next link does not resolve ([urljoin] raises
    [ValueError]) and the crawl stops after one page with that exception. *)
Lemma scrape_yellow_pages_fault_stops_loop :
  (~ exists ps, chain (fun _ => nameless_loop_page) (Some (search_url_of "Chicago, IL")) ps)
  /\ scrape_yellow_pages 1 (fetch_of (fun _ => nameless_loop_page)) "Chicago, IL"
     = Some Raised
  /\ (~ exists ps, chain (fun _ => bad_next_page) (Some (search_url_of "Chicago, IL")) ps)
  /\ scrape_yellow_pages 1 (fetch_of (fun _ => bad_next_page)) "Chicago, IL"
     = Some Raised.
Proof.
  split; [|split; [|split]].
  - intros [ps H]. apply (chain_nameless_loop _ _ H). vm_compute. reflexivity.
  - vm_compute. reflexivity.
  - intros [ps H]. apply (chain_bad_next _ _ H). vm_compute. reflexivity.
  - vm_compute. reflexivity.
Qed.

(** [C3] (amended): on a network where every request succeeds and for a
    location without lone surrogates, a finite next chain from the search
    URL (each visited page's next link resolves, and the last page has
    none) makes the crawl finish once it has the fuel for the pages of the
    chain, with the per-page extraction results concatenated in visiting
    order, or with the extractor's fault if a visited page has a nameless
    listing block.  Without such a chain (the links go on forever, or one
    does not resolve) the crawl never returns a result: it runs on unless
    the extractor or [urljoin] raises, and it runs forever when no page
    makes either raise. *)
Theorem scrape_yellow_pages_chain (docs : string -> node) (location : string) :
  (encodes_utf8 location = true ->
   forall ps, chain docs (Some (search_url_of location)) ps ->
     forall n, S (length ps) <= n ->
     scrape_yellow_pages n (fetch_of docs) location
     = Some (match extract_all ps with
             | Some rs => Returned rs
             | None => Raised
             end))
  /\ ((~ exists ps, chain docs (Some (search_url_of location)) ps) ->
      forall n, scrape_yellow_pages n (fetch_of docs) location = None
                \/ scrape_yellow_pages n (fetch_of docs) location = Some Raised)
  /\ (encodes_utf8 location = true ->
      (~ exists ps, chain docs (Some (search_url_of location)) ps) ->
      (forall u, parse_restaurants (docs u) <> None) ->
      (forall u, get_next_page_url (docs u) base_url <> Raised) ->
      forall n, scrape_yellow_pages n (fetch_of docs) location = None).
Proof.
  unfold scrape_yellow_pages. split; [|split].
  - intros He ps Hps n Hn. rewrite He.
    apply (crawl_mono (S (length ps))); [|exact Hn].
    rewrite (crawl_chain docs _ _ Hps). reflexivity.
  - intros Hno n. destruct (encodes_utf8 location); [|now right].
    apply crawl_no_chain. exact Hno.
  - intros He Hno Hp Hr n. rewrite He. apply crawl_no_chain_no_fault; assumption.
Qed.

Definition two_page_docs (u : string) : node :=
  if String.eqb u (search_url_of "Chicago, IL")
  then document
         [ el "div" "info" [ el "a" "business-name" [Text "Corner Cafe"] ];
           el "div" "pagination" [ link "next" "/search?page=2" [Text "Next"] ] ]
  else chicago_page.

Lemma scrape_yellow_pages_chain_witness :
  scrape_yellow_pages 3 (fetch_of two_page_docs) "Chicago, IL"
  = Some (Returned [("Corner Cafe", no_phone); ("Joe's Diner", "(312) 555-0100")]).
Proof.
  destruct (scrape_yellow_pages_chain two_page_docs "Chicago, IL") as [H _].
  rewrite (H (eq_refl true) [two_page_docs (search_url_of "Chicago, IL");
              two_page_docs "https://www.yellowpages.com/search?page=2"]).
  - vm_compute. reflexivity.
  - apply (chain_step _ _ (Some "https://www.yellowpages.com/search?page=2"));
      [vm_compute; reflexivity .. |].
    apply (chain_step _ _ None); [vm_compute; reflexivity .. |].
    apply chain_stop. vm_compute. reflexivity.
  - cbn [length]. lia.
Defined.

(** ** Failing requests *)

(** [fails_from fetch c]: following the next links from [c], every page up
    to some request is fetched and parsed, and that request fails. *)
Inductive fails_from (fetch : fetcher) : option string -> Prop :=
  | fail_here (u : string) :
      nonempty u = true -> fetch u = None -> fails_from fetch (Some u)
  | fail_later (u : string) (soup : node) (rs : list listing) (c : option string) :
      nonempty u = true -> fetch u = Some soup -> parse_restaurants soup = Some rs ->
      get_next_page_url soup base_url = Returned c ->
      fails_from fetch c -> fails_from fetch (Some u).

Lemma crawl_fails (fetch : fetcher) (c : option string) :
  fails_from fetch c -> exists k, forall acc, crawl k fetch c acc = Some (SysExit 1%Z).
Proof.
  induction 1 as [u Hu Hf | u soup rs c Hu Hf Hp Hg _ [k IH]].
  - exists 1. intros acc. rewrite crawl_step, Hu, Hf. reflexivity.
  - exists (S k). intros acc. rewrite crawl_step, Hu, Hf, Hp, Hg. apply IH.
Qed.

(** [C6]: when a request fails, on the first page or a later one, the
    program ends with exit status 1 and the working directory as it was:
    the listings gathered so far are dropped and no CSV file is written. *)
Theorem main_fetch_failure (fetch : fetcher) (prog location : string)
  (rest : list string) (fs : filesystem) :
  fails_from fetch (Some (search_url_of location)) ->
  (exists k, forall n, k <= n -> main n fetch (prog :: location :: rest) fs = Some (1%Z, fs))
  /\ (forall n r, main n fetch (prog :: location :: rest) fs = Some r -> r = (1%Z, fs)).
Proof.
  intros H. destruct (crawl_fails _ _ H) as [k Hk].
  unfold main, scrape_yellow_pages.
  destruct (encodes_utf8 location); [|split; [exists 0; reflexivity | congruence]].
  split.
  - exists k. intros n Hn. rewrite (crawl_mono k n _ _ _ _ (Hk []) Hn). reflexivity.
  - intros n r Hr.
    destruct (crawl n fetch (Some (search_url_of location)) []) as [o|] eqn:E;
      [|discriminate].
    rewrite (crawl_det _ _ _ _ _ _ _ E (Hk [])) in Hr. congruence.
Qed.

Definition second_page_fails (u : string) : option node :=
  if String.eqb u (search_url_of "Chicago, IL") then Some (two_page_docs u) else None.

Lemma main_fetch_failure_witness :
  (exists k, forall n, k <= n ->
     main n second_page_fails ["yellow-scraper.py"; "Chicago, IL"] [] = Some (1%Z, []))
  /\ (forall n r,
     main n second_page_fails ["yellow-scraper.py"; "Chicago, IL"] [] = Some r ->
     r = (1%Z, [])).
Proof.
  apply (main_fetch_failure second_page_fails "yellow-scraper.py" "Chicago, IL" [] []).
  apply (fail_later _ _ (two_page_docs (search_url_of "Chicago, IL"))
           [("Corner Cafe", no_phone)] (Some "https://www.yellowpages.com/search?page=2"));
    [vm_compute; reflexivity ..|].
  apply fail_here; vm_compute; reflexivity.
Defined.

(** ** The CSV file *)

(** The rows [save_to_csv] writes for the listings. *)
Definition rows_of (data : list listing) : csv_rows :=
  map (fun l => [fst l; snd l]) data.

(** Both fields of the listing encode to UTF-8. *)
Definition listing_encodes (l : listing) : bool :=
  encodes_utf8 (fst l) && encodes_utf8 (snd l).

(** The listings before the first one holding a lone surrogate. *)
Fixpoint encodable_prefix (data : list listing) : list listing :=
  match data with
  | [] => []
  | l :: rest => if listing_encodes l then l :: encodable_prefix rest else []
  end.

Lemma write_rows_spec (data : list listing) (written : csv_rows) :
  write_rows data written
  = (if forallb listing_encodes data then Returned tt else Raised,
     (written ++ rows_of (encodable_prefix data))%list).
Proof.
  revert written.
  induction data as [|[name phone] rest IH]; intros written; cbn [write_rows].
  - cbn. rewrite app_nil_r. reflexivity.
  - unfold writerow. cbn [forallb encodable_prefix].
    change (listing_encodes (name, phone)) with (encodes_utf8 name && encodes_utf8 phone).
    rewrite andb_true_r.
    destruct (encodes_utf8 name && encodes_utf8 phone); cbn [andb].
    + rewrite IH. unfold rows_of. cbn [map fst snd]. rewrite <- app_assoc. reflexivity.
    + cbn. rewrite app_nil_r. reflexivity.
Qed.

Lemma save_to_csv_spec (data : list listing) (filename : string) (fs : filesystem) :
  save_to_csv data filename fs
  = match open_path filename with
    | None => (Raised, fs)
    | Some path =>
        (if forallb listing_encodes data then Returned tt else Raised,
         fs_write path (csv_header :: rows_of (encodable_prefix data)) fs)
    end.
Proof.
  unfold save_to_csv. destruct (open_path filename) as [path|]; [|reflexivity].
  change (writerow csv_header []) with (Some [csv_header]). cbv beta iota.
  rewrite write_rows_spec. reflexivity.
Qed.

Lemma encodable_prefix_all (data : list listing) :
  forallb listing_encodes data = true -> encodable_prefix data = data.
Proof.
  induction data as [|l rest IH]; cbn [forallb encodable_prefix]; [reflexivity|].
  intros H. apply andb_true_iff in H as [Hl Hr]. rewrite Hl, IH by exact Hr. reflexivity.
Qed.

Lemma save_to_csv_no_exit (data : list listing) (filename : string) (fs fs' : filesystem)
  (code : Z) :
  save_to_csv data filename fs <> (SysExit code, fs').
Proof.
  rewrite save_to_csv_spec. destruct (open_path filename); [|discriminate].
  destruct (forallb listing_encodes data); discriminate.
Qed.

Lemma fsencode_equation (c : ascii) (r : string) :
  fsencode (String c r) =
  match r with
  | String d (String e r') =>
      if Nat.eqb (ascii_code c) 237 && Nat.leb 160 (ascii_code d) then
        if Nat.eqb (ascii_code d) 178 then option_map (String e) (fsencode r')
        else if Nat.eqb (ascii_code d) 179
        then option_map (String (ascii_of_nat (ascii_code e + 64))) (fsencode r')
        else None
      else option_map (String c) (fsencode r)
  | _ => option_map (String c) (fsencode r)
  end.
Proof. reflexivity. Qed.

(** A name without lone surrogates is its own [os.fsencode]. *)
Lemma fsencode_utf8 (s : string) : encodes_utf8 s = true -> fsencode s = Some s.
Proof.
  induction s as [|c r IH]; intros H; [reflexivity|].
  assert (Hr : encodes_utf8 r = true).
  { destruct r as [|d r']; [reflexivity|]. cbn [encodes_utf8] in H.
    destruct (Nat.eqb (nat_of_ascii c) 237 && Nat.leb 160 (nat_of_ascii d));
      [discriminate | exact H]. }
  rewrite fsencode_equation.
  destruct r as [|d [|e r']]; [reflexivity | rewrite IH by exact Hr; reflexivity|].
  replace (Nat.eqb (ascii_code c) 237 && Nat.leb 160 (ascii_code d)) with false.
  - rewrite IH by exact Hr. reflexivity.
  - cbn [encodes_utf8] in H. unfold ascii_code.
    destruct (Nat.eqb (nat_of_ascii c) 237 && Nat.leb 160 (nat_of_ascii d));
      [discriminate | reflexivity].
Qed.

Lemma open_path_utf8 (filename path : string) :
  encodes_utf8 filename = true -> open_path filename = Some path -> path = filename.
Proof.
  intros He. unfold open_path. rewrite (fsencode_utf8 _ He).
  destruct (contains_char nul filename); [discriminate|].
  destruct (negb (nonempty filename)); [discriminate|].
  destruct (contains_char "/" filename); [discriminate|].
  destruct (string_mem filename ["."; ".."]); [discriminate|].
  destruct (Nat.ltb 255 (String.length filename)); [discriminate|].
  congruence.
Qed.

Lemma fs_lookup_write_same (name : string) (c : csv_rows) (fs : filesystem) :
  fs_lookup name (fs_write name c fs) = Some c.
Proof. unfold fs_lookup, fs_write. cbn. rewrite String.eqb_refl. reflexivity. Qed.







(** ** The Chicago run *)

(** [C8]: with the search page for "Chicago, IL" served as [chicago_page]
    (one listing with a website link, one without), the program exits with
    status 0 and writes [restaurants_without_websites_Chicago%2C+IL.csv]
    holding the header row and the single row for Joe's Diner. *)
Theorem main_chicago (fetch : fetcher) (fs : filesystem) :
  fetch (search_url_of "Chicago, IL") = Some chicago_page ->
  output_filename_of "Chicago, IL" = "restaurants_without_websites_Chicago%2C+IL.csv"
  /\ forall n, 2 <= n ->
     exists fs',
       main n fetch ["yellow-scraper.py"; "Chicago, IL"] fs = Some (0%Z, fs')
       /\ fs_lookup "restaurants_without_websites_Chicago%2C+IL.csv" fs'
          = Some [["Restaurant Name"; "Phone Number"]; ["Joe's Diner"; "(312) 555-0100"]]
       /\ csv_text [["Restaurant Name"; "Phone Number"]; ["Joe's Diner"; "(312) 555-0100"]]
          = "Restaurant Name,Phone Number" ++ crlf ++ "Joe's Diner,(312) 555-0100" ++ crlf.
Proof.
  intros Hf. split; [vm_compute; reflexivity|].
  intros n Hn.
  assert (Hc : crawl 2 fetch (Some (search_url_of "Chicago, IL")) []
               = Some (Returned [("Joe's Diner", "(312) 555-0100")])).
  { rewrite crawl_step.
    replace (nonempty (search_url_of "Chicago, IL")) with true by (vm_compute; reflexivity).
    rewrite Hf, chicago_page_parse.
    replace (get_next_page_url chicago_page base_url) with (@Returned (option string) None)
      by (vm_compute; reflexivity).
    reflexivity. }
  exists (fs_write "restaurants_without_websites_Chicago%2C+IL.csv"
            [["Restaurant Name"; "Phone Number"]; ["Joe's Diner"; "(312) 555-0100"]] fs).
  split; [|split].
  - unfold main, scrape_yellow_pages.
    replace (encodes_utf8 "Chicago, IL") with true by reflexivity.
    rewrite (crawl_mono 2 n _ _ _ _ Hc Hn).
    rewrite save_to_csv_spec.
    replace (open_path (output_filename_of "Chicago, IL"))
      with (Some "restaurants_without_websites_Chicago%2C+IL.csv") by (vm_compute; reflexivity).
    reflexivity.
  - rewrite fs_lookup_write_same. reflexivity.
  - vm_compute. reflexivity.
Qed.

Lemma main_chicago_witness :
  exists fs',
    main 2 (fun _ => Some chicago_page) ["yellow-scraper.py"; "Chicago, IL"] [] = Some (0%Z, fs')
    /\ fs_lookup "restaurants_without_websites_Chicago%2C+IL.csv" fs'
       = Some [["Restaurant Name"; "Phone Number"]; ["Joe's Diner"; "(312) 555-0100"]].
Proof.
  destruct (main_chicago (fun _ => Some chicago_page) []) as [_ H]; [reflexivity|].
  destruct (H 2 (le_n 2)) as [fs' [Hm [Hl _]]].
  exists fs'. split; assumption.
Defined.

(** * Further properties of the program *)

Lemma slength_app' (a b : string) :
  String.length (a ++ b) = String.length a + String.length b.
Proof. induction a as [|c a IH]; cbn; [reflexivity | now rewrite IH]. Qed.

(** ** [str.strip] *)

(** [s] neither starts nor ends with (the UTF-8 bytes of) a character
    [c] with [c.isspace()]. *)
Definition edge_clean (s : string) : Prop :=
  forall w t, In w py_space_chars -> s <> w ++ t /\ s <> t ++ w.

Lemma rev_string_app (a b : string) : rev_string (a ++ b) = rev_string b ++ rev_string a.
Proof.
  induction a as [|c a IH]; cbn [rev_string append].
  - rewrite sappend_nil_r. reflexivity.
  - rewrite IH, sappend_assoc. reflexivity.
Qed.

Lemma rev_string_involutive (s : string) : rev_string (rev_string s) = s.
Proof.
  induction s as [|c s IH]; cbn [rev_string]; [reflexivity|].
  rewrite rev_string_app, IH. reflexivity.
Qed.

Lemma rev_string_length (s : string) : String.length (rev_string s) = String.length s.
Proof.
  induction s as [|c s IH]; cbn [rev_string]; [reflexivity|].
  rewrite slength_app', IH. cbn. lia.
Qed.

Lemma strip_prefix_app (w t : string) : strip_prefix w (w ++ t) = Some t.
Proof.
  induction w as [|c w IH]; [destruct t; reflexivity|].
  cbn [append strip_prefix]. rewrite Ascii.eqb_refl. exact IH.
Qed.

Lemma strip_prefix_some (w s r : string) : strip_prefix w s = Some r -> s = w ++ r.
Proof.
  revert s. induction w as [|c w IH]; intros s H.
  - destruct s; injection H as <-; reflexivity.
  - destruct s as [|d s]; [discriminate|]. cbn [strip_prefix] in H.
    destruct (Ascii.eqb c d) eqn:E; [|discriminate].
    apply Ascii.eqb_eq in E. subst d. cbn [append]. rewrite (IH _ H). reflexivity.
Qed.

Lemma drop_first_some (ws : list string) (s r : string) :
  drop_first ws s = Some r -> exists w, In w ws /\ s = w ++ r.
Proof.
  induction ws as [|w ws IH]; cbn [drop_first]; [discriminate|].
  destruct (strip_prefix w s) as [r'|] eqn:E.
  - intros [= <-]. exists w. split; [left; reflexivity | exact (strip_prefix_some _ _ _ E)].
  - intros H. destruct (IH H) as [w' [Hin Hs]]. exists w'. split; [right|]; assumption.
Qed.

Lemma drop_first_none (ws : list string) (s w : string) :
  drop_first ws s = None -> In w ws -> strip_prefix w s = None.
Proof.
  induction ws as [|w0 ws IH]; cbn [drop_first]; [contradiction|].
  destruct (strip_prefix w0 s) as [r|] eqn:E; [discriminate|].
  intros H [<-|Hin]; [exact E | exact (IH H Hin)].
Qed.

(** Neither the first nor the last character of [s] is among [ws]. *)
Lemma edge_clean_of (s : string) :
  drop_first py_space_chars s = None ->
  drop_first (map rev_string py_space_chars) (rev_string s) = None ->
  edge_clean s.
Proof.
  intros H1 H2 w t Hin. split; intros ->.
  - pose proof (drop_first_none _ _ _ H1 Hin) as H.
    rewrite strip_prefix_app in H. discriminate.
  - pose proof (drop_first_none _ _ _ H2 (in_map rev_string _ _ Hin)) as H.
    rewrite rev_string_app, strip_prefix_app in H. discriminate.
Qed.

Lemma lstrip_n_prefix (ws : list string) (n : nat) (s : string) :
  exists pre, s = pre ++ lstrip_n ws n s.
Proof.
  revert s. induction n as [|n IH]; intros s; cbn [lstrip_n].
  - exists EmptyString. reflexivity.
  - destruct (drop_first ws s) as [r|] eqn:E; [|exists EmptyString; reflexivity].
    destruct (drop_first_some _ _ _ E) as [w [_ ->]].
    destruct (IH r) as [pre Hr]. exists (w ++ pre).
    rewrite sappend_assoc, <- Hr. reflexivity.
Qed.

(** No character of [ws] is the empty string. *)
Definition all_nonempty (ws : list string) : bool := forallb nonempty ws.

Lemma drop_first_empty (ws : list string) :
  all_nonempty ws = true -> drop_first ws EmptyString = None.
Proof.
  induction ws as [|w ws IH]; cbn [drop_first]; [reflexivity|].
  unfold all_nonempty. cbn [forallb]. intros H. apply andb_true_iff in H as [Hw H].
  destruct w as [|c w]; [discriminate|]. cbn [strip_prefix]. exact (IH H).
Qed.

Lemma lstrip_n_done (ws : list string) (n : nat) (s : string) :
  all_nonempty ws = true -> String.length s <= n ->
  drop_first ws (lstrip_n ws n s) = None.
Proof.
  intros Hne. revert s. induction n as [|n IH]; intros s Hl; cbn [lstrip_n].
  - destruct s; [exact (drop_first_empty _ Hne) | cbn in Hl; lia].
  - destruct (drop_first ws s) as [r|] eqn:E; [|exact E].
    apply IH. destruct (drop_first_some _ _ _ E) as [w [Hin ->]].
    unfold all_nonempty in Hne. rewrite forallb_forall in Hne.
    specialize (Hne w Hin). destruct w as [|c w]; [discriminate|].
    cbn [append String.length] in Hl. rewrite slength_app' in Hl. lia.
Qed.

Lemma py_space_chars_nonempty : all_nonempty py_space_chars = true.
Proof. vm_compute. reflexivity. Qed.

Lemma py_space_chars_rev_nonempty : all_nonempty (map rev_string py_space_chars) = true.
Proof. vm_compute. reflexivity. Qed.

Lemma strip_edge_clean (s : string) : edge_clean (strip s).
Proof.
  unfold strip.
  set (t := lstrip_n py_space_chars (String.length s) s).
  set (Q := map rev_string py_space_chars).
  set (u := lstrip_n Q (String.length t) (rev_string t)).
  assert (Ht : drop_first py_space_chars t = None)
    by exact (lstrip_n_done _ _ _ py_space_chars_nonempty (le_n _)).
  assert (Hu : drop_first Q u = None).
  { apply lstrip_n_done; [exact py_space_chars_rev_nonempty|].
    rewrite rev_string_length. apply le_n. }
  destruct (lstrip_n_prefix Q (String.length t) (rev_string t)) as [pre Hpre].
  fold u in Hpre.
  assert (Ht' : t = rev_string u ++ rev_string pre).
  { rewrite <- (rev_string_involutive t), Hpre, rev_string_app. reflexivity. }
  apply edge_clean_of; [|rewrite rev_string_involutive; exact Hu].
  destruct (drop_first py_space_chars (rev_string u)) as [r|] eqn:E; [|reflexivity].
  destruct (drop_first_some _ _ _ E) as [w [Hin Hw]].
  rewrite Hw, sappend_assoc in Ht'.
  pose proof (drop_first_none _ _ _ Ht Hin) as H.
  rewrite Ht', strip_prefix_app in H. discriminate.
Qed.

Lemma edge_clean_no_phone : edge_clean no_phone.
Proof. apply edge_clean_of; vm_compute; reflexivity. Qed.

Lemma Forall2_Forall_r {A B} (R : A -> B -> Prop) (P : B -> Prop) (l1 : list A) (l2 : list B) :
  Forall2 R l1 l2 -> (forall a b, R a b -> P b) -> Forall P l2.
Proof. induction 1; intros HP; constructor; eauto. Qed.

(** [X1]: the names and phones [parse_restaurants] returns never start or
    end with a whitespace character. *)
Theorem parse_restaurants_stripped (soup : node) (rs : list listing) :
  parse_restaurants soup = Some rs ->
  Forall (fun l => edge_clean (fst l) /\ edge_clean (snd l)) rs.
Proof.
  unfold parse_restaurants. intros H.
  destruct (parse_loop_spec _ _ _ H) as [rs' [-> Hf]]. cbn [app].
  apply (Forall2_Forall_r _ _ _ _ Hf).
  intros b l [nm [_ [Hn Hp]]]. rewrite Hn, Hp. split; [apply strip_edge_clean|].
  destruct (find "div" "phones" b); [apply strip_edge_clean | exact edge_clean_no_phone].
Qed.

Lemma parse_restaurants_stripped_witness :
  Forall (fun l => edge_clean (fst l) /\ edge_clean (snd l))
    [("Joe's Diner", "(312) 555-0100")].
Proof. apply (parse_restaurants_stripped chicago_page). vm_compute. reflexivity. Defined.

(** No character of [ws] is a prefix of another one. *)
Definition prefix_free (ws : list string) : bool :=
  forallb (fun w => forallb (fun w' =>
    match strip_prefix w w' with Some _ => String.eqb w w' | None => true end) ws) ws.

Lemma app_common_prefix (a r w t : string) :
  a ++ r = w ++ t -> (exists x, w = a ++ x) \/ (exists x, a = w ++ x).
Proof.
  revert w. induction a as [|c a IH]; intros w H.
  - left. exists w. reflexivity.
  - destruct w as [|d w].
    + right. exists (String c a). reflexivity.
    + cbn [append] in H. injection H as <- H.
      destruct (IH w H) as [[x ->]|[x ->]]; [left|right]; exists x; reflexivity.
Qed.

Lemma drop_first_app (ws : list string) (w t : string) :
  prefix_free ws = true -> In w ws -> drop_first ws (w ++ t) = Some t.
Proof.
  intros Hpf Hin. unfold prefix_free in Hpf. rewrite forallb_forall in Hpf.
  assert (Hw : forall w0, In w0 ws ->
            strip_prefix w0 (w ++ t) <> None -> w0 = w).
  { intros w0 Hin0 Hs.
    destruct (strip_prefix w0 (w ++ t)) as [r|] eqn:E; [|congruence].
    apply strip_prefix_some in E.
    destruct (app_common_prefix _ _ _ _ E) as [[x Hx]|[x Hx]].
    - pose proof (Hpf w Hin) as H. rewrite forallb_forall in H.
      specialize (H w0 Hin0). cbv beta in H. rewrite Hx, strip_prefix_app in H.
      apply String.eqb_eq in H. rewrite <- Hx in H. symmetry. exact H.
    - pose proof (Hpf w0 Hin0) as H. rewrite forallb_forall in H.
      specialize (H w Hin). cbv beta in H. rewrite Hx, strip_prefix_app in H.
      apply String.eqb_eq in H. rewrite <- Hx in H. exact H. }
  clear Hpf. induction ws as [|w0 ws IH]; [contradiction|].
  cbn [drop_first].
  destruct (strip_prefix w0 (w ++ t)) as [r|] eqn:E.
  - assert (w0 = w) as -> by (apply Hw; [left; reflexivity | congruence]).
    rewrite strip_prefix_app in E. symmetry. exact E.
  - destruct Hin as [<-|Hin]; [rewrite strip_prefix_app in E; discriminate|].
    apply IH; [exact Hin|]. intros w1 Hin1. apply Hw. right. exact Hin1.
Qed.

Lemma py_space_chars_prefix_free : prefix_free py_space_chars = true.
Proof. vm_compute. reflexivity. Qed.

Lemma lstrip_n_blank (cs : list string) (n : nat) :
  Forall (fun w => In w py_space_chars) cs ->
  String.length (fold_right String.append EmptyString cs) <= n ->
  lstrip_n py_space_chars n (fold_right String.append EmptyString cs) = EmptyString.
Proof.
  revert n. induction cs as [|w cs IH]; intros n Hcs Hl; cbn [fold_right] in *.
  - destruct n; cbn [lstrip_n]; [reflexivity|].
    rewrite (drop_first_empty _ py_space_chars_nonempty). reflexivity.
  - inversion Hcs as [|? ? Hin Hcs']; subst.
    pose proof py_space_chars_nonempty as Hne. unfold all_nonempty in Hne.
    rewrite forallb_forall in Hne. specialize (Hne w Hin).
    destruct n as [|n].
    + destruct w as [|c w]; [discriminate | cbn in Hl; lia].
    + cbn [lstrip_n]. rewrite (drop_first_app _ _ _ py_space_chars_prefix_free Hin).
      apply IH; [exact Hcs'|]. rewrite slength_app' in Hl.
      destruct w as [|c w]; [discriminate | cbn in Hl; lia].
Qed.

(** A text made of whitespace characters strips to the empty string. *)
Lemma strip_blank (cs : list string) :
  Forall (fun w => In w py_space_chars) cs ->
  strip (fold_right String.append EmptyString cs) = EmptyString.
Proof.
  intros H. unfold strip. rewrite (lstrip_n_blank _ _ H (le_n _)). reflexivity.
Qed.

(** [X2]: a kept block whose phone element holds only whitespace
    characters (ASCII or Unicode) gets the empty string as its phone, not
    the sentinel; likewise a name element holding only whitespace gives
    the empty name. *)
Theorem parse_restaurants_blank_fields (soup : node) (rs : list listing) :
  parse_restaurants soup = Some rs ->
  Forall2 (fun b l =>
      (forall nm cs, find "a" "business-name" b = Some nm ->
       Forall (fun w => In w py_space_chars) cs ->
       text nm = fold_right String.append EmptyString cs -> fst l = EmptyString)
      /\ (forall p cs, find "div" "phones" b = Some p ->
          Forall (fun w => In w py_space_chars) cs ->
          text p = fold_right String.append EmptyString cs -> snd l = EmptyString))
    (filter (fun b => negb (has_website b)) (find_all "div" "info" soup)) rs.
Proof.
  unfold parse_restaurants. intros H.
  destruct (parse_loop_spec _ _ _ H) as [rs' [-> Hf]]. cbn [app].
  eapply Forall2_impl; [|exact Hf].
  intros b l [nm [Hnm [Hn Hp]]]. split.
  - intros nm' cs Hnm' Hcs Hb. rewrite Hnm in Hnm'. injection Hnm' as <-.
    rewrite Hn, Hb. apply strip_blank. exact Hcs.
  - intros p cs Hp' Hcs Hb. rewrite Hp, Hp', Hb. apply strip_blank. exact Hcs.
Qed.

(** A kept block whose phone element holds a no-break space and a space. *)
Definition blank_phone_page : node :=
  document
    [ el "div" "info" [ el "a" "business-name" [Text "Corner Cafe"];
                        el "div" "phones" [Text (utf8 0xA0 ++ " ")] ] ].

Lemma parse_restaurants_blank_fields_witness :
  parse_restaurants blank_phone_page = Some [("Corner Cafe", "")]
  /\ Forall2 (fun b l =>
      (forall nm cs, find "a" "business-name" b = Some nm ->
       Forall (fun w => In w py_space_chars) cs ->
       text nm = fold_right String.append EmptyString cs -> fst l = EmptyString)
      /\ (forall p cs, find "div" "phones" b = Some p ->
          Forall (fun w => In w py_space_chars) cs ->
          text p = fold_right String.append EmptyString cs -> snd l = EmptyString))
    (filter (fun b => negb (has_website b)) (find_all "div" "info" blank_phone_page))
    [("Corner Cafe", "")].
Proof.
  split; [vm_compute; reflexivity|].
  apply parse_restaurants_blank_fields. vm_compute. reflexivity.
Defined.

(** ** Extraction over a split page *)

Lemma descendants_cons (t : string) (cs : list string) (at_ : list (string * string))
  (k : node) (ks : list node) :
  descendants (Elem t cs at_ (k :: ks))
  = (k :: descendants k ++ descendants (Elem t cs at_ ks))%list.
Proof. reflexivity. Qed.

Lemma descendants_app (t : string) (cs : list string) (at_ : list (string * string))
  (k1 k2 : list node) :
  descendants (Elem t cs at_ (k1 ++ k2))
  = (descendants (Elem t cs at_ k1) ++ descendants (Elem t cs at_ k2))%list.
Proof.
  induction k1 as [|k k1 IH]; [reflexivity|].
  rewrite <- app_comm_cons, !descendants_cons, IH.
  rewrite app_comm_cons, app_assoc. reflexivity.
Qed.

Lemma parse_loop_acc (bs : list node) (acc : list listing) :
  parse_loop bs acc = option_map (fun r => acc ++ r)%list (parse_loop bs []).
Proof.
  revert acc. induction bs as [|b bs IH]; intros acc; cbn.
  - rewrite app_nil_r. reflexivity.
  - destruct (find "a" "business-name" b); [|reflexivity].
    destruct (find "a" "track-visit-website" b).
    + apply IH.
    + rewrite IH, (IH [_]).
      destruct (parse_loop bs []); cbn; [|reflexivity].
      rewrite <- app_assoc. reflexivity.
Qed.

Lemma parse_loop_app (bs1 bs2 : list node) (acc : list listing) :
  parse_loop (bs1 ++ bs2) acc
  = match parse_loop bs1 acc with Some a => parse_loop bs2 a | None => None end.
Proof.
  revert acc. induction bs1 as [|b bs1 IH]; intros acc; cbn; [reflexivity|].
  destruct (find "a" "business-name" b); [apply IH | reflexivity].
Qed.

(** [X3]: extracting from an element whose children are [k1 ++ k2] gives
    the listings of the [k1] part followed by those of the [k2] part, and
    fails when either part makes the extractor fail. *)
Theorem parse_restaurants_split (t : string) (cs : list string)
  (at_ : list (string * string)) (k1 k2 : list node) :
  parse_restaurants (Elem t cs at_ (k1 ++ k2))
  = match parse_restaurants (Elem t cs at_ k1) with
    | Some a => option_map (fun b => a ++ b)%list (parse_restaurants (Elem t cs at_ k2))
    | None => None
    end.
Proof.
  unfold parse_restaurants, find_all.
  rewrite descendants_app, filter_app, parse_loop_app.
  destruct (parse_loop _ []) as [a|]; [apply parse_loop_acc | reflexivity].
Qed.

(** ** The crawl loop's accumulator and the exit status *)

(** [X4]: the crawl loop only appends to [all_restaurants]: run from any
    accumulator it ends as it does from the empty one, with a normal result
    preceded by the listings held before. *)
Theorem crawl_accumulates (n : nat) (fetch : fetcher) (c : option string)
  (acc : list listing) :
  crawl n fetch c acc
  = match crawl n fetch c [] with
    | Some (Returned r) => Some (Returned (acc ++ r)%list)
    | o => o
    end.
Proof.
  revert c acc. induction n as [|n IH]; intros c acc; [reflexivity|].
  destruct c as [u|]; cbn [crawl]; [|rewrite app_nil_r; reflexivity].
  destruct (nonempty u); [|rewrite app_nil_r; reflexivity].
  destruct (fetch u) as [soup|]; [|reflexivity].
  destruct (parse_restaurants soup) as [rs|]; [|reflexivity].
  cbv zeta. destruct (get_next_page_url soup base_url) as [next| |]; try reflexivity.
  rewrite (IH _ (acc ++ rs)%list), (IH _ ([] ++ rs)%list).
  destruct (crawl n fetch next []) as [[r| |]|]; try reflexivity.
  rewrite app_nil_l, app_assoc. reflexivity.
Qed.

Lemma crawl_exit_code (n : nat) (fetch : fetcher) (c : option string)
  (acc : list listing) (code : Z) :
  crawl n fetch c acc = Some (SysExit code) -> code = 1%Z.
Proof.
  revert c acc. induction n as [|n IH]; intros c acc H; [discriminate|].
  destruct c as [u|]; cbn [crawl] in H; [|discriminate].
  destruct (nonempty u); [|discriminate].
  destruct (fetch u) as [soup|]; [|congruence].
  destruct (parse_restaurants soup); [|discriminate]. cbv zeta in H.
  destruct (get_next_page_url soup base_url) as [next|code'|] eqn:Eg;
    [exact (IH _ _ H) | exfalso; exact (get_next_page_url_no_exit _ _ _ Eg) | discriminate].
Qed.

Lemma scrape_exit_code (n : nat) (fetch : fetcher) (location : string) (code : Z) :
  scrape_yellow_pages n fetch location = Some (SysExit code) -> code = 1%Z.
Proof.
  unfold scrape_yellow_pages. destruct (encodes_utf8 location); [|discriminate].
  apply crawl_exit_code.
Qed.

(** ** [quote_plus], the output file name and the search URL *)

(** The bytes [quote_plus] can produce: [_ALWAYS_SAFE], ['%'] and ['+']. *)
Definition url_char (c : ascii) : bool := always_safe c || contains_char c "%+".

(** Form decoding of a query value ([urllib.parse.unquote_plus] on bytes):
    ['+'] is a space and ['%'] followed by two hex digits the byte they
    spell; anything else stands for itself. *)
Definition hex_value (c : ascii) : option nat :=
  let n := ascii_code c in
  if Nat.leb 48 n && Nat.leb n 57 then Some (n - 48)
  else if Nat.leb 65 n && Nat.leb n 70 then Some (n - 55)
  else if Nat.leb 97 n && Nat.leb n 102 then Some (n - 87)
  else None.

Fixpoint form_decode (s : string) : string :=
  match s with
  | EmptyString => EmptyString
  | String c r =>
      if Ascii.eqb c "+" then String " " (form_decode r)
      else if Ascii.eqb c "%" then
        match r with
        | String h1 (String h2 r2) =>
            match hex_value h1, hex_value h2 with
            | Some a, Some b => String (ascii_of_nat (a * 16 + b)) (form_decode r2)
            | _, _ => String c (form_decode r)
            end
        | _ => String c (form_decode r)
        end
      else String c (form_decode r)
  end.

Lemma all_chars_impl (p q : ascii -> bool) (s : string) :
  (forall c, p c = true -> q c = true) -> all_chars p s = true -> all_chars q s = true.
Proof.
  intros Hpq. induction s as [|c s IH]; cbn; [reflexivity|].
  intros H. apply andb_true_iff in H as [Hc Hs]. rewrite (Hpq _ Hc), (IH Hs). reflexivity.
Qed.

Lemma hex_digits_safe (c : ascii) :
  always_safe (hex_digit (ascii_code c / 16)) = true
  /\ always_safe (hex_digit (ascii_code c mod 16)) = true.
Proof. destruct c as [[] [] [] [] [] [] [] []]; split; vm_compute; reflexivity. Qed.

Lemma hex_digits_decode (c : ascii) :
  hex_value (hex_digit (ascii_code c / 16)) = Some (ascii_code c / 16)
  /\ hex_value (hex_digit (ascii_code c mod 16)) = Some (ascii_code c mod 16)
  /\ ascii_of_nat (ascii_code c / 16 * 16 + ascii_code c mod 16) = c.
Proof. destruct c as [[] [] [] [] [] [] [] []]; vm_compute; auto. Qed.

Lemma safe_not_special (c : ascii) :
  always_safe c = true ->
  Ascii.eqb c "+" = false /\ Ascii.eqb c "%" = false /\ Ascii.eqb c " " = false.
Proof.
  destruct c as [[] [] [] [] [] [] [] []]; vm_compute; intros H; try discriminate H; auto.
Qed.

Lemma quote_chars (safe s : string) :
  all_chars (fun c => Ascii.eqb c "%" || always_safe c || contains_char c safe)
    (quote safe s) = true.
Proof.
  induction s as [|c s IH]; cbn [quote]; [reflexivity|].
  destruct (always_safe c || contains_char c safe) eqn:E; cbn [all_chars].
  - rewrite <- orb_assoc, E, orb_true_r, IH. reflexivity.
  - destruct (hex_digits_safe c) as [H1 H2].
    rewrite H1, H2, IH, !orb_true_r. reflexivity.
Qed.

Lemma quote_plus_chars (s : string) : all_chars url_char (quote_plus s) = true.
Proof.
  unfold quote_plus. destruct (negb (contains_char " " s)).
  - refine (all_chars_impl _ _ _ (fun c H => _) (quote_chars "" s)).
    revert H. destruct c as [[] [] [] [] [] [] [] []]; vm_compute; congruence.
  - assert (Hq := quote_chars " " s). revert Hq.
    generalize (quote " " s) as t. intros t.
    induction t as [|e t IH]; cbn; [reflexivity|].
    intros H. apply andb_true_iff in H as [He Ht]. rewrite (IH Ht), andb_true_r.
    revert He. destruct e as [[] [] [] [] [] [] [] []]; vm_compute; congruence.
Qed.

(** [X6]: the output file name is made of ASCII letters, digits and the
    bytes [_ . - ~ % +] only; in particular it never holds a ['/'], so the
    file is written in the current directory whatever the location. *)
Theorem output_filename_chars (location : string) :
  all_chars url_char (output_filename_of location) = true
  /\ contains_char "/" (output_filename_of location) = false.
Proof.
  assert (H : all_chars url_char (output_filename_of location) = true).
  { unfold output_filename_of. rewrite !all_chars_app, quote_plus_chars. reflexivity. }
  split; [exact H|].
  apply (avoids_contains "/"); [|reflexivity].
  refine (all_chars_impl _ _ _ (fun c Hc => _) H).
  revert Hc. destruct c as [[] [] [] [] [] [] [] []]; vm_compute; congruence.
Qed.

Lemma url_chars_encode (s : string) : all_chars url_char s = true -> encodes_utf8 s = true.
Proof.
  induction s as [|c r IH]; cbn [all_chars]; [reflexivity|].
  intros H. apply andb_true_iff in H as [Hc Hr].
  assert (H237 : Nat.eqb (nat_of_ascii c) 237 = false)
    by (revert Hc; destruct c as [[] [] [] [] [] [] [] []]; vm_compute; congruence).
  cbn [encodes_utf8]. destruct r as [|d r']; [reflexivity|].
  rewrite H237. exact (IH Hr).
Qed.

Lemma output_filename_encodes (location : string) :
  encodes_utf8 (output_filename_of location) = true.
Proof.
  apply url_chars_encode.
  unfold output_filename_of. rewrite !all_chars_app, quote_plus_chars. reflexivity.
Qed.

(** [X5]: a finished run of the program exits with status 0 after writing
    to [output_filename_of argv[1]] the header and one row per listing the
    crawl returned, or exits with status 1.  With status 1 the working
    directory is unchanged, except when the crawl returned listings one of
    which holds a lone surrogate: then that file holds the header and the
    rows before that listing.  No other status occurs. *)
Theorem main_outcome (n : nat) (fetch : fetcher) (argv : list string)
  (fs fs' : filesystem) (code : Z) :
  main n fetch argv fs = Some (code, fs') ->
  (code = 0%Z /\ exists location rs,
      nth_error argv 1 = Some location
      /\ scrape_yellow_pages n fetch location = Some (Returned rs)
      /\ fs' = fs_write (output_filename_of location) (csv_header :: rows_of rs) fs)
  \/ (code = 1%Z /\
      (fs' = fs
       \/ exists location rs,
           nth_error argv 1 = Some location
           /\ scrape_yellow_pages n fetch location = Some (Returned rs)
           /\ forallb listing_encodes rs = false
           /\ fs' = fs_write (output_filename_of location)
                    (csv_header :: rows_of (encodable_prefix rs)) fs)).
Proof.
  unfold main. intros H.
  destruct argv as [|prog [|location rest]];
    try (injection H as <- <-; right; split; [reflexivity | left; reflexivity]).
  destruct (scrape_yellow_pages n fetch location) as [[rs|c|]|] eqn:E; try discriminate.
  - rewrite save_to_csv_spec in H.
    destruct (open_path (output_filename_of location)) as [path|] eqn:Ho.
    + pose proof (open_path_utf8 _ _ (output_filename_encodes location) Ho) as ->.
      destruct (forallb listing_encodes rs) eqn:Hf; injection H as <- <-.
      * left. split; [reflexivity|]. exists location, rs.
        rewrite (encodable_prefix_all _ Hf). repeat split; assumption.
      * right. split; [reflexivity|]. right. exists location, rs.
        repeat split; assumption.
    + injection H as <- <-. right. split; [reflexivity | left; reflexivity].
  - injection H as <- <-. right. split; [exact (scrape_exit_code _ _ _ _ E) | left; reflexivity].
  - injection H as <- <-. right. split; [reflexivity | left; reflexivity].
Qed.

Lemma main_outcome_witness :
  (0%Z = 0%Z /\ exists location rs,
      nth_error ["yellow-scraper.py"; "Chicago, IL"] 1 = Some location
      /\ scrape_yellow_pages 2 (fun _ => Some chicago_page) location = Some (Returned rs)
      /\ [("restaurants_without_websites_Chicago%2C+IL.csv",
           [["Restaurant Name"; "Phone Number"]; ["Joe's Diner"; "(312) 555-0100"]])]
         = fs_write (output_filename_of location) (csv_header :: rows_of rs) [])
  \/ (0%Z = 1%Z /\
      ([("restaurants_without_websites_Chicago%2C+IL.csv",
         [["Restaurant Name"; "Phone Number"]; ["Joe's Diner"; "(312) 555-0100"]])] = []
       \/ exists location rs,
           nth_error ["yellow-scraper.py"; "Chicago, IL"] 1 = Some location
           /\ scrape_yellow_pages 2 (fun _ => Some chicago_page) location = Some (Returned rs)
           /\ forallb listing_encodes rs = false
           /\ [("restaurants_without_websites_Chicago%2C+IL.csv",
                [["Restaurant Name"; "Phone Number"]; ["Joe's Diner"; "(312) 555-0100"]])]
              = fs_write (output_filename_of location)
                  (csv_header :: rows_of (encodable_prefix rs)) [])).
Proof.
  apply (main_outcome 2 (fun _ => Some chicago_page) ["yellow-scraper.py"; "Chicago, IL"]).
  vm_compute. reflexivity.
Defined.

Lemma form_decode_pct (c : ascii) (rest : string) :
  form_decode (String "%" (String (hex_digit (ascii_code c / 16))
                             (String (hex_digit (ascii_code c mod 16)) rest)))
  = String c (form_decode rest).
Proof.
  destruct (hex_digits_decode c) as [H1 [H2 H3]].
  change (form_decode (String "%" (String (hex_digit (ascii_code c / 16))
                             (String (hex_digit (ascii_code c mod 16)) rest))))
    with (match hex_value (hex_digit (ascii_code c / 16)),
                hex_value (hex_digit (ascii_code c mod 16)) with
          | Some a, Some b => String (ascii_of_nat (a * 16 + b)) (form_decode rest)
          | _, _ => String "%" (form_decode (String (hex_digit (ascii_code c / 16))
                             (String (hex_digit (ascii_code c mod 16)) rest)))
          end).
  rewrite H1, H2, H3. reflexivity.
Qed.

Lemma form_decode_safe (c : ascii) (rest : string) :
  always_safe c = true -> form_decode (String c rest) = String c (form_decode rest).
Proof.
  intros H. destruct (safe_not_special c H) as [Hp [Hpc _]].
  cbn [form_decode]. rewrite Hp, Hpc. reflexivity.
Qed.

Lemma form_decode_quote (s : string) : form_decode (quote "" s) = s.
Proof.
  induction s as [|c s IH]; [reflexivity|]. cbn [quote contains_char].
  rewrite orb_false_r. destruct (always_safe c) eqn:E.
  - rewrite (form_decode_safe _ _ E), IH. reflexivity.
  - rewrite form_decode_pct, IH. reflexivity.
Qed.

Lemma form_decode_quote_space (s : string) :
  form_decode (replace_char " " "+" (quote " " s)) = s.
Proof.
  induction s as [|c s IH]; [reflexivity|]. cbn [quote contains_char].
  rewrite orb_false_r. destruct (always_safe c) eqn:E; cbn [orb].
  - destruct (safe_not_special c E) as [_ [_ Hs]].
    cbn [replace_char]. rewrite Hs, (form_decode_safe _ _ E), IH. reflexivity.
  - destruct (Ascii.eqb c " ") eqn:Es.
    + apply Ascii.eqb_eq in Es. subst c. cbn [replace_char].
      replace (Ascii.eqb " " " ") with true by reflexivity.
      cbn [form_decode]. replace (Ascii.eqb "+" "+") with true by reflexivity.
      rewrite IH. reflexivity.
    + destruct (hex_digits_safe c) as [H1 H2].
      destruct (safe_not_special _ H1) as [_ [_ Hs1]].
      destruct (safe_not_special _ H2) as [_ [_ Hs2]].
      cbn [replace_char]. rewrite Hs1, Hs2.
      replace (Ascii.eqb "%" " ") with false by reflexivity.
      rewrite form_decode_pct, IH. reflexivity.
Qed.

Lemma form_decode_quote_plus (s : string) : form_decode (quote_plus s) = s.
Proof.
  unfold quote_plus. destruct (negb (contains_char " " s));
    [apply form_decode_quote | apply form_decode_quote_space].
Qed.

Lemma sappend_inj_l (a x y : string) : a ++ x = a ++ y -> x = y.
Proof. induction a as [|c a IH]; cbn; [auto | intros H; injection H; exact IH]. Qed.

Lemma slength_app (a b : string) : String.length (a ++ b) = String.length a + String.length b.
Proof. induction a as [|c a IH]; cbn; [reflexivity | rewrite IH; reflexivity]. Qed.

Lemma sappend_inj_r (x y s : string) : x ++ s = y ++ s -> x = y.
Proof.
  revert y. induction x as [|c x IH]; intros [|d y] H; cbn in H.
  - reflexivity.
  - apply (f_equal String.length) in H. cbn in H. rewrite slength_app in H. lia.
  - apply (f_equal String.length) in H. cbn in H. rewrite slength_app in H. lia.
  - injection H as -> H. rewrite (IH y H). reflexivity.
Qed.

(** [X7]: two runs for different locations never write to the same file:
    the output file name determines the location. *)
Theorem output_filename_injective (l1 l2 : string) :
  output_filename_of l1 = output_filename_of l2 <-> l1 = l2.
Proof.
  split; [|intros ->; reflexivity].
  unfold output_filename_of. intros H.
  apply sappend_inj_l in H. apply sappend_inj_r in H.
  rewrite <- (form_decode_quote_plus l1), <- (form_decode_quote_plus l2), H.
  reflexivity.
Qed.

Lemma split_on_none (c : ascii) (s : string) :
  contains_char c s = false -> split_on c s = [s].
Proof.
  induction s as [|d s IH]; cbn; [reflexivity|].
  intros H. apply orb_false_iff in H as [Hd Hs]. rewrite Hd, (IH Hs). reflexivity.
Qed.

(** [X8]: the search URL the crawl starts from always has host
    [www.yellowpages.com], path [/search], no fragment, and a query of
    exactly two [&]-separated fields, the second of which carries the
    location: form decoding gives it back unchanged. *)
Theorem search_url_split (location : string) :
  urlsplit (search_url_of location) ""
  = Some (SplitResult "https" "www.yellowpages.com" "/search"
      ("search_terms=restaurants&geo_location_terms=" ++ quote_plus location) "")
  /\ split_on "&" ("search_terms=restaurants&geo_location_terms=" ++ quote_plus location)
     = ["search_terms=restaurants"; "geo_location_terms=" ++ quote_plus location]
  /\ form_decode (quote_plus location) = location.
Proof.
  assert (Hq := quote_plus_chars location).
  remember (quote_plus location) as q eqn:Eq.
  split; [|split].
  - unfold search_url_of. rewrite <- Eq.
    change (base_url ++ "/search?search_terms=restaurants&geo_location_terms=" ++ q)
      with ("https://" ++ "www.yellowpages.com" ++ "/" ++ "search"
            ++ query_part (Some ("search_terms=restaurants&geo_location_terms=" ++ q))).
    apply urlsplit_https_any; [reflexivity | reflexivity|].
    cbn [query_ok]. rewrite avoids_app.
    replace (avoids ("#" ++ unsafe_chars) "search_terms=restaurants&geo_location_terms=")
      with true by reflexivity.
    cbn [andb]. refine (all_chars_impl _ _ _ (fun c Hc => _) Hq).
    revert Hc. destruct c as [[] [] [] [] [] [] [] []]; vm_compute; congruence.
  - assert (Ha : contains_char "&" q = false).
    { apply (avoids_contains "&"); [|reflexivity].
      refine (all_chars_impl _ _ _ (fun c Hc => _) Hq).
      revert Hc. destruct c as [[] [] [] [] [] [] [] []]; vm_compute; congruence. }
    cbn [append split_on Ascii.eqb Ascii.eqb Bool.eqb andb].
    rewrite (split_on_none _ _ Ha). reflexivity.
  - subst q. apply form_decode_quote_plus.
Qed.

(** ** Site-relative next links *)

Lemma split_first_slash (c : ascii) (x : string) :
  Ascii.eqb c "/" = false ->
  split_first c (String "/" x)
  = match split_first c x with Some (a, b) => Some (String "/" a, b) | None => None end.
Proof. intros Hc. cbn [split_first]. rewrite Hc. reflexivity. Qed.

Lemma split_rest_slash (x : string) :
  exists y q f,
  (let '(url1, fragment) :=
     match split_first "#" (String "/" x) with Some p => p | None => (String "/" x, "") end in
   let '(url2, query) :=
     match split_first "?" url1 with Some p => p | None => (url1, "") end in
   (url2, query, fragment)) = (String "/" y, q, f).
Proof.
  rewrite split_first_slash by reflexivity.
  destruct (split_first "#" x) as [[a b]|]; cbv beta iota;
    rewrite split_first_slash by reflexivity.
  - destruct (split_first "?" a) as [[a' b']|]; do 3 eexists; reflexivity.
  - destruct (split_first "?" x) as [[a' b']|]; do 3 eexists; reflexivity.
Qed.

Lemma urlsplit_slash (r : string) :
  starts_with_2slash (remove_unsafe (String "/" r)) = false ->
  exists x q f, urlsplit (String "/" r) "https" = Some (SplitResult "https" "" (String "/" x) q f).
Proof.
  intros H2. unfold urlsplit.
  change (remove_unsafe (lstrip_by is_c0_or_space (String "/" r))) with (String "/" (remove_unsafe r)).
  change (remove_unsafe (String "/" r)) with (String "/" (remove_unsafe r)) in H2.
  set (R := remove_unsafe r) in *.
  replace (remove_unsafe (rstrip_by is_c0_or_space (lstrip_by is_c0_or_space "https")))
    with "https" by reflexivity.
  cbv zeta. rewrite split_first_slash by reflexivity.
  destruct (split_first ":" R) as [[a b]|]; cbv beta iota;
    [replace (is_ascii_alpha "/") with false by reflexivity; cbn [andb] |];
    cbv beta iota; rewrite H2; cbv beta iota;
    destruct (split_rest_slash R) as [y [q [f E]]]; revert E;
    destruct (match split_first "#" (String "/" R) with Some p => p | None => (String "/" R, "") end)
      as [u1 fr];
    destruct (match split_first "?" u1 with Some p => p | None => (u1, "") end) as [u2 qu];
    intros E; injection E as -> -> ->; do 3 eexists; reflexivity.
Qed.

Lemma splitparams_slash (x : string) : nonempty (fst (splitparams (String "/" x))) = true.
Proof.
  unfold splitparams.
  destruct (split_last "/" (String "/" x)) as [[dir last]|].
  - destruct (split_first ";" last) as [[a b]|]; [|reflexivity].
    destruct dir; reflexivity.
  - rewrite split_first_slash by reflexivity.
    destruct (split_first ";" x) as [[a b]|]; reflexivity.
Qed.

Lemma urlparse_slash (r : string) :
  starts_with_2slash (remove_unsafe (String "/" r)) = false ->
  exists p params q f, urlparse (String "/" r) "https" = Some (ParseResult "https" "" p params q f)
  /\ nonempty p = true.
Proof.
  intros H2. destruct (urlsplit_slash r H2) as [x [q [f E]]].
  unfold urlparse. rewrite E.
  replace (string_mem "https" uses_params) with true by reflexivity. cbn [andb].
  destruct (contains_char ";" (String "/" x)).
  - assert (Hn := splitparams_slash x).
    destruct (splitparams (String "/" x)) as [p params].
    exists p, params, q, f. split; [reflexivity | exact Hn].
  - exists (String "/" x), "", q, f. split; reflexivity.
Qed.

Lemma prefix_app_l (a b : string) : String.prefix a (a ++ b) = true.
Proof.
  induction a as [|c a IH]; [destruct b; reflexivity|].
  cbn. destruct (ascii_dec c c) as [_|n]; [exact IH | contradiction].
Qed.

Lemma prefix_slash_inv (u : string) : String.prefix "/" u = true -> exists w, u = String "/" w.
Proof.
  destruct u as [|c w]; cbn [String.prefix]; [discriminate|].
  destruct (ascii_dec "/" c) as [<-|]; [eauto | discriminate].
Qed.

Lemma urlunparse_site (u params q f : string) :
  nonempty u = true ->
  exists w, urlunparse "https" "www.yellowpages.com" u params q f
            = "https://www.yellowpages.com/" ++ w.
Proof.
  intros Hu. unfold urlunparse, urlunsplit.
  set (u1 := if nonempty params then u ++ ";" ++ params else u).
  assert (H1 : nonempty u1 = true)
    by (subst u1; destruct (nonempty params); [destruct u; [discriminate | reflexivity] | exact Hu]).
  assert (Hw : exists w, (if nonempty u1 && negb (String.prefix "/" u1) then "/" ++ u1 else u1)
                         = String "/" w).
  { rewrite H1. cbn [andb]. destruct (String.prefix "/" u1) eqn:E; cbn [negb].
    - exact (prefix_slash_inv _ E).
    - exists u1. reflexivity. }
  destruct Hw as [w Hw].
  replace (nonempty "www.yellowpages.com") with true by reflexivity.
  replace (nonempty "https") with true by reflexivity. cbn [orb].
  rewrite Hw.
  exists (w ++ (if nonempty q then "?" ++ q else "") ++ (if nonempty f then "#" ++ f else "")).
  destruct (nonempty q), (nonempty f); cbn; rewrite ?sappend_assoc, ?sappend_nil_r; reflexivity.
Qed.

Lemma urljoin_site (r : string) :
  starts_with_2slash (remove_unsafe (String "/" r)) = false ->
  exists w, urljoin base_url (String "/" r) = Some ("https://www.yellowpages.com/" ++ w).
Proof.
  intros H2. destruct (urlparse_slash r H2) as [p [params [q [f [E Hp]]]]].
  unfold urljoin. rewrite urlparse_base.
  replace (nonempty base_url) with true by reflexivity. cbn [negb nonempty String.eqb].
  cbv beta iota. rewrite E. cbv beta iota.
  match goal with
  | |- exists w, Some ?X = Some (?a ++ w) =>
      enough (exists w, X = a ++ w) as [w Hw] by (exists w; rewrite Hw; reflexivity)
  end.
  replace (negb ("https" =? "https") || negb (string_mem "https" uses_relative)) with false
    by reflexivity.
  replace (string_mem "https" uses_netloc && nonempty "") with false by reflexivity.
  replace (string_mem "https" uses_netloc) with true by reflexivity.
  rewrite Hp. cbn [negb andb].
  apply urlunparse_site.
  match goal with
  | |- nonempty (if nonempty ?X then _ else _) = true =>
      destruct (nonempty X) eqn:En; [exact En | reflexivity]
  end.
Qed.

(** [X9]: a next link whose [href] starts with a single ['/'] (also once
    [urljoin] has dropped its tab, CR and LF bytes) is resolved to a URL on
    [https://www.yellowpages.com/]: such a link never takes the crawl to
    another host. *)
Theorem get_next_page_url_same_site (soup nb : node) (h : string) :
  find "a" "next" soup = Some nb -> get nb "href" = Some h ->
  String.prefix "/" h = true -> starts_with_2slash (remove_unsafe h) = false ->
  exists w, get_next_page_url soup base_url = Returned (Some ("https://www.yellowpages.com/" ++ w)).
Proof.
  intros Hf Hg Hs H2. unfold get_next_page_url. rewrite Hf, Hg.
  destruct (prefix_slash_inv h Hs) as [r ->].
  destruct (urljoin_site r H2) as [w Hw].
  exists w. cbn [nonempty]. rewrite Hw. reflexivity.
Qed.

Lemma get_next_page_url_same_site_witness :
  exists w, get_next_page_url (next_page_doc "/search?page=2&sort=name") base_url
            = Returned (Some ("https://www.yellowpages.com/" ++ w)).
Proof.
  apply (get_next_page_url_same_site _ (link "next" "/search?page=2&sort=name" [Text "Next"])
           "/search?page=2&sort=name"); vm_compute; reflexivity.
Defined.

(** ** Reading the CSV text back *)















(** ** The first next anchor decides *)

Lemma find_app (name cls t : string) (cs : list string) (at_ : list (string * string))
  (k1 k2 : list node) (nb : node) :
  find name cls (Elem t cs at_ k1) = Some nb ->
  find name cls (Elem t cs at_ (k1 ++ k2)) = Some nb.
Proof.
  unfold find, find_all. rewrite descendants_app, filter_app.
  destruct (filter (matches name cls) (descendants (Elem t cs at_ k1))); [discriminate|].
  exact (fun H => H).
Qed.

(** [X11]: only the first [a.next] anchor in document order is looked at:
    once a part of the page holds one, whatever follows that part does not
    change the next URL, even when the first anchor has no usable [href]
    and a later one has. *)
Theorem get_next_page_url_first_anchor (t : string) (cs : list string)
  (at_ : list (string * string)) (k1 k2 : list node) (nb : node) (base : string) :
  find "a" "next" (Elem t cs at_ k1) = Some nb ->
  get_next_page_url (Elem t cs at_ (k1 ++ k2)) base
  = get_next_page_url (Elem t cs at_ k1) base.
Proof.
  intros H. unfold get_next_page_url. rewrite H, (find_app _ _ _ _ _ _ _ _ H). reflexivity.
Qed.

Lemma get_next_page_url_first_anchor_witness :
  get_next_page_url
    (document ([el "div" "pagination" [el "a" "next" [Text "Next"]]]
               ++ [el "div" "pagination" [link "next" "/search?page=2" [Text "Next"]]]))
    base_url
  = get_next_page_url (document [el "div" "pagination" [el "a" "next" [Text "Next"]]]) base_url
  /\ get_next_page_url (document [el "div" "pagination" [el "a" "next" [Text "Next"]]]) base_url
     = Returned None.
Proof.
  split; [|reflexivity].
  apply (get_next_page_url_first_anchor _ _ _ _ _ (el "a" "next" [Text "Next"])).
  reflexivity.
Defined.
